(** * gorm-generics: a generic repository over an ORM handle

    A shallow embedding of [repository.go] (the generic repository, its
    pagination arithmetic and specification folding) and of the helper file
    with [ChunkSlice], [MapDto] and [Map].

    - Go's [int] and [int64] are 64-bit two's-complement integers, modelled in
      [Z] with the wrap-around written out.
    - [float64] is IEEE-754 binary64: a finite value is modelled by a mantissa
      and a binary exponent, and every operation rounds its exact result to 53
      significant bits, ties to even.
    - The ORM handle ([*gorm.DB]) is an external collaborator.  Its fluent
      builder is modelled as a record that accumulates what the chain methods
      were given, and the database behind it by a driver that answers the
      finishing calls; every finishing call is logged with the statement it
      was issued on.
    - Slices are lists; [len] is the list length as an [int]. *)

From Stdlib Require Import ZArith Lia Bool SpecFloat.
From stdpp Require Import base tactics option list strings.

Local Open Scope Z_scope.

(** ** Machine integers *)

Definition int_min : Z := - 2 ^ 63.
Definition int_max : Z := 2 ^ 63 - 1.

(** The value an [int] holds after an arithmetic result [z] wraps around. *)
Definition wrap_int (z : Z) : Z := (z + 2 ^ 63) mod 2 ^ 64 - 2 ^ 63.

Definition in_int (z : Z) : Prop := int_min <= z <= int_max.

(** The ceiling of [n / d] for [0 < d], in integer arithmetic: what the page
    count is meant to be. *)
Definition ceiling (n d : Z) : Z := - ((- n) / d).

(** [len(slice)] as an [int]. *)
Definition len {A} (s : list A) : Z := Z.of_nat (length s).

(** ** float64 *)

Module Float64.

(** The finite binary64 value [mant * 2^expo].  The representation is not
    normalised; the operations below respect the denoted value. *)
Record float64 := mkF { mant : Z; expo : Z }.

(** [2^e] for a non-negative [e] and [1] otherwise: the two halves of a
    scaling by [2^e] with [e] of either sign. *)
Definition pow2 (e : Z) : Z := 2 ^ Z.max 0 e.

(** The integer nearest to [n / d], ties to even ([0 <= n], [0 < d]). *)
Definition round_half_even (n d : Z) : Z :=
  let q := n / d in
  let r := n mod d in
  if 2 * r <? d then q
  else if d <? 2 * r then q + 1
  else if Z.even q then q else q + 1.

(** [floor (log2 (n / d))] for positive [n] and [d]. *)
Definition flog2 (n d : Z) : Z :=
  let k := Z.log2 n - Z.log2 d in
  if n * pow2 (- k) <? d * pow2 k then k - 1 else k.

(** The positive rational [n / d] rounded to 53 significant bits.  The
    exponent range of binary64 is not modelled: the operands here come from
    [int64] values, so every quotient lies between [2^-63] and [2^63]. *)
Definition round53 (n d : Z) : float64 :=
  let e := flog2 n d - 52 in
  mkF (round_half_even (n * pow2 (- e)) (d * pow2 e)) e.

(** [n / d] rounded to binary64, for [0 < d]. *)
Definition round_ratio (n d : Z) : float64 :=
  match n ?= 0 with
  | Eq => mkF 0 0
  | Gt => round53 n d
  | Lt => let f := round53 (- n) d in mkF (- mant f) (expo f)
  end.

(** [float64(z)] for an integer [z]: the conversion rounds to nearest even.
    The result is an integer again, kept with exponent [0]. *)
Definition of_int (z : Z) : float64 :=
  let a := Z.abs z in
  let e := Z.max 0 (Z.log2 a - 52) in
  mkF (Z.sgn z * (round_half_even a (2 ^ e) * 2 ^ e)) 0.

(** [x <= y] *)
Definition leb (x y : float64) : bool :=
  let e := Z.min (expo x) (expo y) in
  mant x * 2 ^ (expo x - e) <=? mant y * 2 ^ (expo y - e).

(** [math.Max(x, y)] on finite values. *)
Definition Max (x y : float64) : float64 := if leb x y then y else x.

(** [x / y].  The divisor is positive wherever the repository divides (it is
    a [math.Max(1, _)]); for [y <= 0] Go yields an infinity, a NaN or the
    mirrored quotient, none of which is needed here, and [div] is only meant
    for [0 < y]. *)
Definition div (x y : float64) : float64 :=
  round_ratio (mant x * pow2 (expo x - expo y))
              (mant y * pow2 (expo y - expo x)).

(** [math.Ceil(x)]: exact, the result is an integer. *)
Definition Ceil (x : float64) : float64 :=
  if 0 <=? expo x then mkF (mant x * 2 ^ expo x) 0
  else mkF (- ((- mant x) / 2 ^ (- expo x))) 0.

(** The integer part of [x], truncated towards zero. *)
Definition trunc (x : float64) : Z :=
  if 0 <=? expo x then mant x * 2 ^ expo x
  else Z.quot (mant x) (2 ^ (- expo x)).

End Float64.


(** ** Outcomes of a Go call

    A call returns a value, panics, or (in a model that runs a loop on fuel)
    is still running when the fuel is spent. *)
Inductive outcome (A : Type) : Type :=
| Returned (a : A)
| Panicked
| OutOfFuel.
Arguments Returned {A} a.
Arguments Panicked {A}.
Arguments OutOfFuel {A}.

(** ** The helpers: ChunkSlice, Map, MapDto *)

(** The slice expression [s[lo:hi]].  Go panics unless
    [0 <= lo <= hi <= cap(s)]; [ChunkSlice] never asks for more than
    [len(s)], so the capacity is taken to be the length. *)
Definition slice_expr {T} (s : list T) (lo hi : Z) : option (list T) :=
  if (0 <=? lo) && (lo <=? hi) && (hi <=? len s)
  then Some (take (Z.to_nat (hi - lo)) (drop (Z.to_nat lo) s))
  else None.

(** The loop [for i := 0; i < len(slice); i += chunkSize] with its body, from
    the loop variable [i] and the [chunks] appended so far.  The sums are
    [int] sums and wrap around. *)
Fixpoint ChunkSlice_loop {T} (fuel : nat) (slice : list T) (chunkSize : Z)
    (i : Z) (chunks : list (list T)) : outcome (list (list T)) :=
  match fuel with
  | O => OutOfFuel
  | S fuel =>
      if i <? len slice then
        let end_ := wrap_int (i + chunkSize) in
        let end_ := if end_ >? len slice then len slice else end_ in
        match slice_expr slice i end_ with
        | None => Panicked
        | Some chunk =>
            ChunkSlice_loop fuel slice chunkSize (wrap_int (i + chunkSize))
                            (chunks ++ [chunk])
        end
      else Returned chunks
  end.

Definition ChunkSlice {T} (fuel : nat) (slice : list T) (chunkSize : Z)
    : outcome (list (list T)) :=
  ChunkSlice_loop fuel slice chunkSize 0 [].

(** [for i := range ts { us[i] = f(ts[i]) }], from index [i] on; [ts] is what
    is left of the input from that index. *)
Fixpoint Map_loop {T U} (f : T -> U) (ts : list T) (i : nat) (us : list U)
    : list U :=
  match ts with
  | [] => us
  | t :: ts => Map_loop f ts (S i) (<[i := f t]> us)
  end.

(** [Map]: [make([]U, len(ts))] gives a slice of zero values, which the loop
    then overwrites index by index. *)
Definition Map {T U} (zero_U : U) (ts : list T) (f : T -> U) : list U :=
  Map_loop f ts 0%nat (replicate (length ts) zero_U).

Section MapDto.
(** [M] is the model type, [E] what its conversion returns ([ToEntity] in
    [repository.go], [ToDto] in the stand-alone helper file, whose [MapDto]
    is otherwise the same) and [T] the target type. *)
Context {M E T any : Type}.
Variable ToEntity : M -> E.
(** [any(et)]: the value as an interface value. *)
Variable to_any : E -> any.
(** The checked type assertion [x.(T)]: [Some v] for [v, true] and [None]
    for [_, false]. *)
Variable assert_T : any -> option T.
(** [*new(T)], the zero value of [T]. *)
Variable zero_T : T.

Definition MapDto (modelArray : list M) (dtoType : T) : list T :=
  Map zero_T modelArray (fun ce =>
    let et := ToEntity ce in
    match assert_T (to_any et) with
    | None => zero_T
    | Some etCasted => etCasted
    end).

End MapDto.

(** ** The specification abstraction *)

(** Modelled from the spec: the [Specification] interface is declared in a
    file of the repository that is not among the sources.  The spec gives its
    contract as [GetQuery() -> fragment] and [GetValues() -> ordered sequence
    of bound parameters], and calls a specification pure; it is modelled by
    the two results. *)
Record Specification (any : Type) := {
  GetQuery : string;
  GetValues : list any;
}.
Arguments GetQuery {any} s.
Arguments GetValues {any} s.

(** ** Page request and page result *)

Module PageResult.
Record t (M : Type) := mk {
  Data : list M;
  Count : Z;
  Page : Z;
}.
Arguments mk {M}.
Arguments Data {M}.
Arguments Count {M}.
Arguments Page {M}.
End PageResult.

Module PageConfig.
Record t := mk {
  Page : Z;
  Size : Z;
  IgnoreCount : bool;
  ForceCount : bool;
}.
End PageConfig.

(** ** The ORM handle

    [gorm.DB] is not part of the repository.  Of its fluent interface the
    repository uses the chain methods [WithContext], [Where], [Limit],
    [Offset], [Preload] and [Model], and the finishing methods [Create],
    [Save], [Delete], [First], [Find] and [Count].  A handle is modelled by
    what the chain methods put into it; a chain method returns the handle it
    builds and leaves the receiver as it was.  (gorm may build the new handle
    on the statement of the receiver; the repository only ever goes on with
    the handle a chain method returned, except in [FindPagedWithLimit], where
    the count query and the data query both start from [dbPrewarm], and the
    properties of the data query below are stated on the fields that
    [Where], [Limit] and [Offset] set.)  A finishing method is answered by a
    driver, a function of the handle, the arguments and the state of the
    database, and is recorded in the session's list of calls. *)
Module gorm.
Section Handle.
Context {M any Ctx Error World : Type}.

(** The first argument of [Where]. *)
Inductive Query :=
| QueryString (query : string)
| QueryModel (example : M)
| QueryValue (example : any).

Record Cond := mkCond { cond_query : Query; cond_args : list any }.

Record DB := mkDB {
  db_context : option Ctx;
  db_where : list Cond;
  db_limit : option Z;
  db_offset : option Z;
  db_preload : list string;
  db_model : option M;
}.

Definition WithContext (d : DB) (ctx : Ctx) : DB :=
  mkDB (Some ctx) (db_where d) (db_limit d) (db_offset d) (db_preload d) (db_model d).

Definition Where (d : DB) (query : Query) (args : list any) : DB :=
  mkDB (db_context d) (db_where d ++ [mkCond query args]) (db_limit d)
       (db_offset d) (db_preload d) (db_model d).

Definition Limit (d : DB) (limit : Z) : DB :=
  mkDB (db_context d) (db_where d) (Some limit) (db_offset d) (db_preload d) (db_model d).

Definition Offset (d : DB) (offset : Z) : DB :=
  mkDB (db_context d) (db_where d) (db_limit d) (Some offset) (db_preload d) (db_model d).

Definition Preload (d : DB) (query : string) : DB :=
  mkDB (db_context d) (db_where d) (db_limit d) (db_offset d)
       (db_preload d ++ [query]) (db_model d).

Definition Model (d : DB) (value : M) : DB :=
  mkDB (db_context d) (db_where d) (db_limit d) (db_offset d) (db_preload d) (Some value).

(** [clause.Associations] *)
Definition Associations : string := "clause.Associations".

(** The conditions of a statement are joined with AND: a row is selected
    when it satisfies each of them, whatever satisfying one condition
    means. *)
Definition selects (sat : Cond -> M -> bool) (d : DB) (row : M) : bool :=
  forallb (fun c => sat c row) (db_where d).

(** The positional parameters of a statement, in the order of the
    conditions that brought them. *)
Definition bound_values (d : DB) : list any :=
  concat (map cond_args (db_where d)).

(** A finishing call, with the handle it was made on. *)
Inductive Call :=
| CallCreate (d : DB) (value : M)
| CallCreateAny (d : DB) (value : any)
| CallSave (d : DB) (value : M)
| CallDelete (d : DB) (value : M) (conds : list any)
| CallFirst (d : DB) (conds : list any)
| CallFind (d : DB)
| CallCount (d : DB).

Definition call_db (c : Call) : DB :=
  match c with
  | CallCreate d _ | CallCreateAny d _ | CallSave d _ | CallDelete d _ _
  | CallFirst d _ | CallFind d | CallCount d => d
  end.

(** The database behind the handle.  [Create] and [Save] may write into the
    value they are given (a generated key), [First], [Find] and [Count] fill
    their destination; each answers with the [Error] field of the handle it
    returns, [None] for [nil]. *)
Record Driver := mkDriver {
  drv_create : DB -> M -> World -> (M * option Error) * World;
  drv_create_any : DB -> any -> World -> option Error * World;
  drv_save : DB -> M -> World -> (M * option Error) * World;
  drv_delete : DB -> M -> list any -> World -> option Error * World;
  drv_first : DB -> list any -> World -> (M * option Error) * World;
  drv_find : DB -> World -> (list M * option Error) * World;
  drv_count : DB -> World -> (Z * option Error) * World;
}.

Record Session := mkSession { world : World; calls : list Call }.

(** Computations against the database. *)
Definition DBM (A : Type) : Type := Session -> A * Session.

Definition ret {A} (a : A) : DBM A := fun s => (a, s).

Definition bind {A B} (m : DBM A) (k : A -> DBM B) : DBM B :=
  fun s => let (a, s') := m s in k a s'.

(** A computation run on a database in state [w], with nothing logged yet. *)
Definition run {A} (m : DBM A) (w : World) : A * Session := m (mkSession w []).

Definition is_count (c : Call) : bool :=
  match c with CallCount _ => true | _ => false end.

Definition is_find (c : Call) : bool :=
  match c with CallFind _ => true | _ => false end.

Definition finish {A} (c : Call) (answer : World -> A * World) : DBM A :=
  fun s => let (a, w) := answer (world s) in (a, mkSession w (calls s ++ [c])).

Variable driver : Driver.

Definition Create (d : DB) (value : M) : DBM (M * option Error) :=
  finish (CallCreate d value) (drv_create driver d value).

Definition CreateAny (d : DB) (value : any) : DBM (option Error) :=
  finish (CallCreateAny d value) (drv_create_any driver d value).

Definition Save (d : DB) (value : M) : DBM (M * option Error) :=
  finish (CallSave d value) (drv_save driver d value).

Definition Delete (d : DB) (value : M) (conds : list any) : DBM (option Error) :=
  finish (CallDelete d value conds) (drv_delete driver d value conds).

Definition First (d : DB) (conds : list any) : DBM (M * option Error) :=
  finish (CallFirst d conds) (drv_first driver d conds).

Definition Find (d : DB) : DBM (list M * option Error) :=
  finish (CallFind d) (drv_find driver d).

Definition Count (d : DB) : DBM (Z * option Error) :=
  finish (CallCount d) (drv_count driver d).

End Handle.
Arguments Query : clear implicits.
Arguments Cond : clear implicits.
Arguments DB : clear implicits.
Arguments Call : clear implicits.
Arguments Driver : clear implicits.
Arguments Session : clear implicits.
Arguments DBM : clear implicits.
End gorm.

Notation "'let*' x ':=' c1 'in' c2" := (gorm.bind c1 (fun x => c2))
  (at level 10, x name, c1 at level 100, c2 at level 200).
Notation "'let*' ' pat ':=' c1 'in' c2" :=
  (gorm.bind c1 (fun x => match x with pat => c2 end))
  (at level 10, pat pattern, c1 at level 100, c2 at level 200).

(** ** Facts about the float64 model *)

Module Float64Facts.
Import Float64.

Lemma pow2_pos e : 0 < pow2 e.
Proof. unfold pow2. apply Z.pow_pos_nonneg; lia. Qed.

Lemma pow2_nonneg e : 0 <= e -> pow2 e = 2 ^ e.
Proof. intros. unfold pow2. now rewrite Z.max_r. Qed.

Lemma pow2_neg e : e <= 0 -> pow2 e = 1.
Proof. intros. unfold pow2. now rewrite Z.max_l. Qed.

Lemma pow2_succ e : 0 <= e -> 2 ^ (e + 1) = 2 * 2 ^ e.
Proof. intros. rewrite Z.pow_add_r by lia. lia. Qed.

Lemma ceiling_unique m s c : 0 < s -> (c - 1) * s < m <= c * s -> ceiling m s = c.
Proof.
  intros Hs Hm. unfold ceiling.
  assert ((- m) / s = - c) as ->; [|lia].
  symmetry. apply (Z.div_unique_pos (- m) s (- c) (c * s - m)); lia.
Qed.

(** [ceiling n d] is the least integer [c] with [n <= c * d]. *)
Lemma ceiling_bounds n d : 0 < d -> (ceiling n d - 1) * d < n <= ceiling n d * d.
Proof.
  intros Hd. unfold ceiling.
  pose proof (Z.div_mod (- n) d ltac:(lia)) as Hdm.
  pose proof (Z.mod_pos_bound (- n) d Hd) as Hr. nia.
Qed.

Lemma round_half_even_bounds n d :
  0 < d -> n / d <= round_half_even n d <= n / d + 1.
Proof. intros. unfold round_half_even. repeat case_match; lia. Qed.

Lemma round_half_even_exact n d : 0 < d -> n mod d = 0 -> round_half_even n d = n / d.
Proof.
  intros Hd Hr. unfold round_half_even. rewrite Hr.
  destruct (Z.ltb_spec (2 * 0) d); [done | lia].
Qed.

Lemma round_half_even_down n d :
  0 < d -> round_half_even n d = n / d -> 2 * (n mod d) <= d.
Proof.
  intros Hd. unfold round_half_even.
  destruct (Z.ltb_spec (2 * (n mod d)) d); [lia|].
  destruct (Z.ltb_spec d (2 * (n mod d))); [lia|]. lia.
Qed.

Lemma flog2_spec n d :
  0 < n -> 0 < d ->
  d * pow2 (flog2 n d) <= n * pow2 (- flog2 n d) < 2 * (d * pow2 (flog2 n d)).
Proof.
  intros Hn Hd. unfold flog2.
  pose proof (Z.log2_spec n Hn) as [Ha1 Ha2].
  pose proof (Z.log2_spec d Hd) as [Hb1 Hb2].
  pose proof (Z.log2_nonneg n) as Ha0. pose proof (Z.log2_nonneg d) as Hb0.
  rewrite <- Z.add_1_r in Ha2, Hb2. rewrite pow2_succ in Ha2, Hb2 by done.
  set (a := Z.log2 n) in *. set (b := Z.log2 d) in *.
  destruct (Z.le_gt_cases 0 (a - b)) as [Hk|Hk].
  - assert (2 ^ a = 2 ^ b * 2 ^ (a - b)) as Hab.
    { rewrite <- Z.pow_add_r by lia. f_equal. lia. }
    assert (0 < 2 ^ (a - b)) by (apply Z.pow_pos_nonneg; lia).
    rewrite (pow2_neg (- (a - b))), (pow2_nonneg (a - b)) by lia.
    destruct (Z.ltb_spec (n * 1) (d * 2 ^ (a - b))) as [Hlt|Hge].
    + destruct (Z.eq_dec (a - b) 0) as [H0|H0].
      * rewrite H0 in *. change (pow2 (0 - 1)) with 1. change (pow2 (- (0 - 1))) with 2.
        change (2 ^ 0) with 1 in *. nia.
      * rewrite (pow2_nonneg (a - b - 1)), (pow2_neg (- (a - b - 1))) by lia.
        assert (2 ^ (a - b) = 2 * 2 ^ (a - b - 1)) as Hp.
        { rewrite <- pow2_succ by lia. f_equal. lia. }
        assert (0 < 2 ^ (a - b - 1)) by (apply Z.pow_pos_nonneg; lia).
        nia.
    + assert (2 ^ b * 2 ^ (a - b) <= d * 2 ^ (a - b)) by (apply Z.mul_le_mono_nonneg_r; lia).
      rewrite (pow2_neg (- (a - b))), (pow2_nonneg (a - b)) by lia. lia.
  - assert (2 ^ b = 2 ^ a * 2 ^ (b - a)) as Hab.
    { rewrite <- Z.pow_add_r by lia. f_equal. lia. }
    assert (0 < 2 ^ (b - a)) by (apply Z.pow_pos_nonneg; lia).
    rewrite (pow2_nonneg (- (a - b))), (pow2_neg (a - b)) by lia.
    replace (- (a - b)) with (b - a) by lia.
    destruct (Z.ltb_spec (n * 2 ^ (b - a)) (d * 1)) as [Hlt|Hge].
    + rewrite (pow2_neg (a - b - 1)), (pow2_nonneg (- (a - b - 1))) by lia.
      replace (- (a - b - 1)) with (b - a + 1) by lia.
      rewrite pow2_succ by lia. nia.
    + rewrite (pow2_neg (a - b)), (pow2_nonneg (- (a - b))) by lia.
      replace (- (a - b)) with (b - a) by lia. nia.
Qed.


Lemma of_int_exact z : Z.abs z <= 2 ^ 53 -> of_int z = mkF z 0.
Proof.
  intros Hz. unfold of_int.
  destruct (Z.eq_dec (Z.abs z) (2 ^ 53)) as [He|Hne].
  - rewrite He. destruct (Z.abs_spec z) as [[_ Ha]|[_ Ha]].
    + replace z with (2 ^ 53) by lia. reflexivity.
    + replace z with (- 2 ^ 53) by lia. reflexivity.
  - assert (Z.log2 (Z.abs z) - 52 <= 0) as Hl.
    { destruct (Z.eq_dec (Z.abs z) 0) as [->|]; [done|].
      assert (Z.log2 (Z.abs z) < 53); [|lia].
      apply Z.log2_lt_pow2; lia. }
    rewrite Z.max_l by lia. change (2 ^ 0) with 1.
    rewrite round_half_even_exact by (lia || apply Z.mod_1_r).
    rewrite Z.div_1_r. f_equal. lia.
Qed.

Lemma of_int_large z :
  2 ^ 53 <= z -> exists z', of_int z = mkF z' 0 /\ 2 ^ 53 <= z'.
Proof.
  intros Hz. unfold of_int. eexists; split; [reflexivity|].
  rewrite Z.abs_eq, Z.sgn_pos by lia.
  assert (53 <= Z.log2 z) as Hl by (apply Z.log2_le_pow2; lia).
  rewrite Z.max_r by lia.
  pose proof (Z.log2_spec z ltac:(lia)) as [Hlo _].
  set (e := Z.log2 z - 52) in *.
  assert (0 < 2 ^ e) as Hp by (apply Z.pow_pos_nonneg; lia).
  assert (2 ^ Z.log2 z = 2 ^ 52 * 2 ^ e) as Heq.
  { rewrite <- Z.pow_add_r by lia. f_equal. lia. }
  pose proof (round_half_even_bounds z (2 ^ e) Hp) as [Hb _].
  assert (2 ^ 52 <= z / 2 ^ e) by (apply Z.div_le_lower_bound; lia).
  assert (2 <= 2 ^ e) as He.
  { change 2 with (2 ^ 1) at 1. apply Z.pow_le_mono_r; lia. }
  change (2 ^ 53) with (2 ^ 52 * 2). rewrite Z.mul_1_l.
  apply Z.mul_le_mono_nonneg; lia.
Qed.

Lemma of_int_nonpos z : z <= 0 -> exists z', of_int z = mkF z' 0 /\ z' <= 0.
Proof.
  intros Hz. unfold of_int. eexists; split; [reflexivity|].
  set (e := Z.max 0 (Z.log2 (Z.abs z) - 52)).
  assert (0 < 2 ^ e) as Hp by (apply Z.pow_pos_nonneg; lia).
  pose proof (round_half_even_bounds (Z.abs z) (2 ^ e) Hp) as [Hb _].
  assert (0 <= Z.abs z / 2 ^ e) by (apply Z.div_pos; lia).
  destruct (Z.eq_dec z 0) as [->|]; [done|].
  rewrite Z.sgn_neg by lia. nia.
Qed.

Lemma leb_int x y : leb (mkF x 0) (mkF y 0) = (x <=? y).
Proof. unfold leb. cbn. by rewrite !Z.mul_1_r. Qed.

(** [math.Max(1, float64(size))]: an integer of at least 1, equal to
    [max 1 size] while [size] needs no more than 53 bits. *)
Lemma Max_one_of_int size :
  exists s, Max (mkF 1 0) (of_int size) = mkF s 0 /\ 1 <= s /\
            (size <= 2 ^ 53 -> s = Z.max 1 size) /\
            (2 ^ 53 <= size -> 2 ^ 53 <= s).
Proof.
  unfold Max.
  destruct (Z.le_gt_cases size 0) as [Hn|Hp].
  - destruct (of_int_nonpos size Hn) as (z' & -> & Hz').
    rewrite leb_int. destruct (Z.leb_spec 1 z'); [lia|].
    exists 1. repeat split; lia.
  - destruct (Z.le_gt_cases size (2 ^ 53)) as [Hs|Hl].
    + rewrite of_int_exact by lia. rewrite leb_int.
      destruct (Z.leb_spec 1 size); [|lia].
      exists size. repeat split; lia.
    + destruct (of_int_large size ltac:(lia)) as (z' & -> & Hz').
      rewrite leb_int. destruct (Z.leb_spec 1 z'); [|lia].
      exists z'. repeat split; lia.
Qed.

Lemma Ceil_nonpos_expo m e : e <= 0 -> Ceil (mkF m e) = mkF (ceiling m (2 ^ (- e))) 0.
Proof.
  intros He. unfold Ceil, ceiling. cbn [expo mant].
  destruct (Z.leb_spec 0 e); [|done].
  replace e with 0 by lia. cbn. f_equal. rewrite Z.div_1_r. lia.
Qed.

(** Rounding the quotient of a dividend of at most 53 bits never crosses an
    integer: the ceiling of the rounded quotient is the ceiling of the exact
    one. *)
Lemma Ceil_round53 n d :
  0 < n <= 2 ^ 53 -> 0 < d -> Ceil (round53 n d) = mkF (ceiling n d) 0.
Proof.
  intros [Hn Hn53] Hd. unfold round53.
  pose proof (flog2_spec n d Hn Hd) as Hk.
  set (k := flog2 n d) in *.
  destruct (Z.lt_ge_cases k 0) as [Hneg|Hpos].
  - (* n < d: the quotient is below 1 *)
    rewrite (pow2_neg k), (pow2_nonneg (- k)) in Hk by lia.
    rewrite (pow2_neg (k - 52)), (pow2_nonneg (- (k - 52))) by lia.
    rewrite Ceil_nonpos_expo by lia.
    assert (2 ^ (- (k - 52)) = 2 ^ 52 * 2 ^ (- k)) as Hs.
    { rewrite <- Z.pow_add_r by lia. f_equal. lia. }
    assert (2 <= 2 ^ (- k)) as H2.
    { change 2 with (2 ^ 1) at 1. apply Z.pow_le_mono_r; lia. }
    rewrite Z.mul_1_r.
    set (N := n * 2 ^ (- (k - 52))).
    pose proof (round_half_even_bounds N d Hd) as [Hlo Hhi].
    assert (2 ^ 52 <= N / d) by (apply Z.div_le_lower_bound; subst N; nia).
    assert (N / d < 2 ^ 53) by (apply Z.div_lt_upper_bound; subst N; nia).
    f_equal. rewrite (ceiling_unique _ _ 1); [|lia|nia].
    symmetry. apply ceiling_unique; nia.
  - rewrite (pow2_nonneg k), (pow2_neg (- k)) in Hk by lia.
    assert (0 < 2 ^ k) as Hpk by (apply Z.pow_pos_nonneg; lia).
    assert (k <= 53) as Hk53.
    { destruct (Z.le_gt_cases k 53); [done|].
      assert (2 ^ 54 <= 2 ^ k) by (apply Z.pow_le_mono_r; lia). nia. }
    destruct (Z.eq_dec k 53) as [Hk'|Hk'].
    + (* the quotient is 2^53 *)
      rewrite Hk' in *. assert (d = 1 /\ n = 2 ^ 53) as [-> ->] by nia.
      reflexivity.
    + rewrite (pow2_neg (k - 52)), (pow2_nonneg (- (k - 52))) by lia.
      rewrite Ceil_nonpos_expo by lia. f_equal.
      rewrite Z.mul_1_r.
      set (s := 2 ^ (- (k - 52))) in *.
      assert (0 < s) as Hs by (apply Z.pow_pos_nonneg; lia).
      assert (s * 2 ^ k = 2 ^ 52) as Hsk.
      { subst s. rewrite <- Z.pow_add_r by lia. f_equal. lia. }
      pose proof (Z.div_mod n d ltac:(lia)) as Hnd.
      pose proof (Z.mod_pos_bound n d Hd) as Hr.
      set (q := n / d) in *. set (r := n mod d) in *.
      destruct (Z.eq_dec r 0) as [Hr0|Hr0].
      * (* d divides n: nothing is rounded *)
        assert (n * s = q * s * d) as HN by nia.
        rewrite HN, round_half_even_exact by (lia || apply Z.mod_mul; lia).
        rewrite Z.div_mul by lia.
        rewrite (ceiling_unique _ _ q); [|lia|lia].
        symmetry. apply ceiling_unique; nia.
      * assert (ceiling n d = q + 1) as -> by (apply ceiling_unique; nia).
        pose proof (round_half_even_bounds (n * s) d Hd) as [Hlo Hhi].
        assert (q * s <= n * s / d) by (apply Z.div_le_lower_bound; nia).
        assert (n * s / d < (q + 1) * s) by (apply Z.div_lt_upper_bound; nia).
        apply ceiling_unique; [lia|]. split; [|lia].
        destruct (Z.eq_dec (round_half_even (n * s) d) (q * s)) as [Heq|]; [|lia].
        exfalso.
        assert (n * s / d = q * s) as Hdiv by lia.
        rewrite <- Hdiv in Heq. apply round_half_even_down in Heq; [|done].
        pose proof (Z.div_mod (n * s) d ltac:(lia)) as HN.
        rewrite Hdiv in HN.
        assert ((n * s) mod d = r * s) as Hmod by nia.
        rewrite Hmod in Heq.
        assert (d * 2 ^ k <= 2 * s * 2 ^ k) as Hd2 by (change (2 ^ 53) with (2 * 2 ^ 52) in Hn53; nia).
        assert (d <= 2 * s) by nia.
        assert (r = 1 /\ d = 2 * s) as [Hr1 Hd1] by nia.
        assert (n = 2 ^ 53) as Hn' by (change (2 ^ 53) with (2 * 2 ^ 52) in *; nia).
        assert (n = 2 ^ k * d) as Hn'' by (change (2 ^ 53) with (2 * 2 ^ 52) in *; nia).
        assert (n mod d = 0) by (rewrite Hn''; apply Z.mod_mul; lia).
        subst r. lia.
Qed.

(** [math.Ceil(float64(count) / minLimit)] for a count of at most 53 bits and
    an integral [minLimit]. *)
Lemma Ceil_div_of_int count s :
  0 <= count <= 2 ^ 53 -> 0 < s ->
  Ceil (div (of_int count) (mkF s 0)) = mkF (ceiling count s) 0.
Proof.
  intros Hc Hs. rewrite of_int_exact by lia.
  unfold div. cbn [mant expo]. change (pow2 (0 - 0)) with 1. rewrite !Z.mul_1_r.
  unfold round_ratio. destruct (Z.compare_spec count 0) as [->|?|?]; [|lia|].
  - reflexivity.
  - apply Ceil_round53; lia.
Qed.

Lemma trunc_int z : trunc (mkF z 0) = z.
Proof. unfold trunc. cbn. lia. Qed.

Lemma ceiling_small n d : 0 < n <= d -> ceiling n d = 1.
Proof. intros. apply ceiling_unique; lia. Qed.

(** The model against the IEEE-754 specification of the Standard Library
    ([SpecFloat], precision 53, maximal exponent 1024), on a few operands. *)
Definition to_spec (x : float64) : spec_float :=
  binary_normalize 53 1024 (mant x) (expo x) false.

Definition spec_of_int (z : Z) : spec_float := binary_normalize 53 1024 z 0 false.

Example of_int_agrees :
  Forall (fun z => to_spec (of_int z) = spec_of_int z)
    [0; 1; -7; 2 ^ 53; 2 ^ 53 + 1; 2 ^ 53 + 3; - (2 ^ 53 + 1); 2 ^ 62 + 12345;
     2 ^ 63 - 1; - 2 ^ 63].
Proof. repeat constructor. Qed.

Example div_agrees :
  Forall (fun p => to_spec (div (of_int p.1) (of_int p.2))
                   = SFdiv 53 1024 (spec_of_int p.1) (spec_of_int p.2))
    [(1, 3); (2, 3); (10, 3); (0, 5); (7, 7); (-10, 3); (2 ^ 53 + 1, 1);
     (2 ^ 53 - 1, 2); (2 ^ 53 - 1, 2 ^ 53); (1, 2 ^ 62); (2 ^ 62 + 12345, 7);
     (2 ^ 63 - 1, 2 ^ 63 - 1); (5, 2 ^ 63 - 1)].
Proof. repeat constructor. Qed.

End Float64Facts.

(** ** Facts about the helpers *)

Lemma wrap_int_id z : in_int z -> wrap_int z = z.
Proof.
  unfold in_int, int_min, int_max, wrap_int. intros Hz.
  rewrite Z.mod_small; lia.
Qed.

Lemma slice_expr_Some {T} (s : list T) lo hi :
  0 <= lo <= hi -> hi <= len s ->
  slice_expr s lo hi = Some (take (Z.to_nat (hi - lo)) (drop (Z.to_nat lo) s)).
Proof.
  intros [H1 H2] H3. unfold slice_expr.
  destruct (Z.leb_spec 0 lo); [|lia].
  destruct (Z.leb_spec lo hi); [|lia].
  destruct (Z.leb_spec hi (len s)); [done|lia].
Qed.

(** [cs] is a chunking of [l] with chunk size [n]: the chunks concatenate to
    [l], none is empty or longer than [n], and all but the last have exactly
    [n] elements. *)
Definition chunked {T} (n : Z) (cs : list (list T)) (l : list T) : Prop :=
  concat cs = l
  /\ Forall (fun c => 0 < len c <= n) cs
  /\ forall j c, cs !! j = Some c -> (S j < length cs)%nat -> len c = n.

Lemma chunked_nil {T} n : chunked n [] (@nil T).
Proof. repeat split; [constructor | intros j c Hj; by rewrite lookup_nil in Hj]. Qed.

Lemma chunked_nonempty {T} n (cs : list (list T)) l :
  chunked n cs l -> cs <> [] -> l <> [].
Proof.
  intros (Hcat & Hall & _) Hne. destruct cs as [|c cs]; [done|].
  apply Forall_cons in Hall as [Hc _]. subst l. simpl.
  destruct c; [unfold len in Hc; simpl in Hc; lia | done].
Qed.

Lemma chunked_cons {T} n (c : list T) cs l :
  0 < len c <= n -> (cs <> [] -> len c = n) -> chunked n cs l ->
  chunked n (c :: cs) (c ++ l).
Proof.
  intros Hc Hfull (Hcat & Hall & Hlast). repeat split.
  - simpl. by rewrite Hcat.
  - by constructor.
  - intros [|j] c' Hj Hlt; simpl in *.
    + injection Hj as <-. apply Hfull. destruct cs; [simpl in Hlt; lia | done].
    + apply (Hlast j); [done | lia].
Qed.

(** The chunks are consecutive pieces: chunk [j] is the [n] elements of [l]
    that start at index [j * n] (fewer for the last chunk). *)
Lemma chunked_lookup {T} n (cs : list (list T)) : forall l j c,
  0 <= n -> chunked n cs l -> cs !! j = Some c ->
  c = take (Z.to_nat n) (drop (j * Z.to_nat n) l).
Proof.
  induction cs as [|c0 cs IH]; intros l j c Hn (Hcat & Hall & Hlast) Hj; [done|].
  apply Forall_cons in Hall as [Hc0 Hall]. cbv beta in Hc0. simpl in Hcat. subst l.
  destruct j as [|j]; simpl in Hj.
  - injection Hj as ->. simpl. rewrite drop_0.
    destruct cs as [|c1 cs].
    + simpl. rewrite app_nil_r, take_ge; [done | unfold len in *; lia].
    + rewrite take_app_length'; [done|].
      specialize (Hlast 0%nat c eq_refl). simpl in Hlast. unfold len in *. lia.
  - assert (len c0 = n) as Hfull.
    { apply (Hlast 0%nat); [done|]. apply lookup_lt_Some in Hj. simpl. lia. }
    replace (S j * Z.to_nat n)%nat with (length c0 + j * Z.to_nat n)%nat
      by (unfold len in *; lia).
    rewrite <- drop_drop, drop_app_length.
    apply IH; [done | | done]. repeat split; [done|].
    intros j' c' Hj' Hlt. apply (Hlast (S j')); [done | simpl; lia].
Qed.

Section ChunkSliceFacts.
Context {T : Type}.
Variable slice : list T.
Variable chunkSize : Z.
Hypothesis chunkSize_pos : 0 < chunkSize <= int_max.
Hypothesis slice_short : len slice <= 2 ^ 62.

(** The loop from any reachable state: it returns, having appended a
    chunking of what is left of the slice from [i] on. *)
Lemma ChunkSlice_loop_returns n : forall i chunks,
  0 <= i -> (i = 0 \/ chunkSize <= 2 ^ 62 \/ len slice <= i) ->
  (Z.to_nat (len slice - i) <= n)%nat ->
  exists rest,
    (forall fuel, (n < fuel)%nat ->
       ChunkSlice_loop fuel slice chunkSize i chunks = Returned (chunks ++ rest))
    /\ chunked chunkSize rest (drop (Z.to_nat i) slice).
Proof.
  induction n as [|n IH]; intros i chunks Hi Hinv Hn.
  - exists []. split.
    + intros [|fuel] Hfuel; [lia|]. cbn [ChunkSlice_loop].
      destruct (Z.ltb_spec i (len slice)); [lia|]. by rewrite app_nil_r.
    + rewrite drop_ge by (unfold len in *; lia). apply chunked_nil.
  - destruct (Z.lt_ge_cases i (len slice)) as [Hlt|Hge].
    + assert (in_int (i + chunkSize)) as Hsum.
      { unfold in_int, int_min, int_max in *. lia. }
      set (end_ := if i + chunkSize >? len slice then len slice else i + chunkSize).
      assert (i < end_ <= len slice /\ end_ - i <= chunkSize
              /\ (i + chunkSize < len slice -> end_ = i + chunkSize)
              /\ (len slice <= i + chunkSize -> end_ = len slice))
        as (He1 & He2 & He3 & He4).
      { subst end_. destruct (Z.gtb_spec (i + chunkSize) (len slice)); lia. }
      set (chunk := take (Z.to_nat (end_ - i)) (drop (Z.to_nat i) slice)).
      destruct (IH (i + chunkSize) (chunks ++ [chunk])) as (rest & Hrun & Hrest);
        [lia | lia | lia |].
      exists (chunk :: rest). split.
      { intros [|fuel] Hfuel; [lia|]. cbn [ChunkSlice_loop].
        destruct (Z.ltb_spec i (len slice)); [|lia].
        rewrite (wrap_int_id _ Hsum). fold end_.
        rewrite slice_expr_Some by lia. fold chunk.
        rewrite Hrun by lia. f_equal. by rewrite <- app_assoc. }
      assert (len chunk = end_ - i) as Hlen.
      { subst chunk. unfold len in *. rewrite length_take, length_drop. lia. }
      assert (drop (Z.to_nat i) slice
              = chunk ++ drop (Z.to_nat (i + chunkSize)) slice) as ->.
      { subst chunk. destruct (Z.lt_ge_cases (i + chunkSize) (len slice)) as [Hin|Hout].
        - rewrite He3 by done.
          replace (Z.to_nat (i + chunkSize))
            with (Z.to_nat i + Z.to_nat (i + chunkSize - i))%nat by lia.
          rewrite <- drop_drop. by rewrite take_drop.
        - rewrite (drop_ge slice (Z.to_nat (i + chunkSize))) by (unfold len in *; lia).
          rewrite app_nil_r, take_ge; [done|].
          rewrite length_drop. unfold len in *. lia. }
      apply chunked_cons; [lia | | done].
      intros Hne. apply (chunked_nonempty _ _ _ Hrest) in Hne.
      destruct (Z.lt_ge_cases (i + chunkSize) (len slice)) as [Hin|Hout]; [lia|].
      exfalso. apply Hne. apply drop_ge. unfold len in *. lia.
    + exists []. split.
      * intros [|fuel] Hfuel; [lia|]. cbn [ChunkSlice_loop].
        destruct (Z.ltb_spec i (len slice)); [lia|]. by rewrite app_nil_r.
      * rewrite drop_ge by (unfold len in *; lia). apply chunked_nil.
Qed.

(** [ChunkSlice] returns the same chunking of the slice for any fuel above
    the length of the slice. *)
Lemma ChunkSlice_returns :
  exists chunks,
    (forall fuel, (length slice < fuel)%nat ->
       ChunkSlice fuel slice chunkSize = Returned chunks)
    /\ chunked chunkSize chunks slice.
Proof.
  destruct (ChunkSlice_loop_returns (length slice) 0 [])
    as (chunks & Hrun & Hck); [lia | by left | unfold len; lia |].
  exists chunks. split; [|exact Hck].
  intros fuel Hfuel. unfold ChunkSlice. by rewrite Hrun.
Qed.

End ChunkSliceFacts.

(** With a chunk size of at least 1 the loop ends, whatever the length of
    the slice: the index grows in every iteration, and should the sum wrap
    around, the slice expression of that iteration panics. *)
Lemma ChunkSlice_loop_halts {T} (slice : list T) chunkSize n : forall i chunks fuel,
  1 <= chunkSize <= int_max -> len slice <= int_max ->
  0 <= i -> (Z.to_nat (len slice - i) <= n)%nat -> (n < fuel)%nat ->
  ChunkSlice_loop fuel slice chunkSize i chunks <> OutOfFuel.
Proof.
  induction n as [|n IH]; intros i chunks [|fuel] Hc Hlen Hi Hn Hfuel; try lia;
    cbn [ChunkSlice_loop]; destruct (Z.ltb_spec i (len slice)) as [Hlt|Hge];
    try done; try lia.
  destruct (Z.le_gt_cases (i + chunkSize) int_max) as [Hfits|Hwraps].
  - rewrite wrap_int_id by (unfold in_int, int_min, int_max in *; lia).
    rewrite slice_expr_Some;
      [| destruct (Z.gtb_spec (i + chunkSize) (len slice)); lia
       | destruct (Z.gtb_spec (i + chunkSize) (len slice)); lia].
    apply IH; lia.
  - assert (wrap_int (i + chunkSize) < 0) as Hneg.
    { unfold wrap_int, int_max in *.
      replace (i + chunkSize + 2 ^ 63)
        with (i + chunkSize + 2 ^ 63 - 2 ^ 64 + 1 * 2 ^ 64) by lia.
      rewrite Z_mod_plus_full, Z.mod_small; lia. }
    destruct (Z.gtb_spec (wrap_int (i + chunkSize)) (len slice)); [unfold len in *; lia|].
    unfold slice_expr.
    destruct (Z.leb_spec i (wrap_int (i + chunkSize))); [lia|].
    by rewrite andb_false_r.
Qed.

(** [chunkSize = 0]: the index stays at [0] and the loop appends empty
    chunks for as long as it is run. *)
Lemma ChunkSlice_loop_zero {T} (slice : list T) fuel : forall chunks,
  slice <> [] -> ChunkSlice_loop fuel slice 0 0 chunks = OutOfFuel.
Proof.
  induction fuel as [|fuel IH]; intros chunks Hne; [done|].
  cbn [ChunkSlice_loop]. assert (0 < len slice) as Hlen.
  { destruct slice; [done | unfold len; simpl; lia]. }
  destruct (Z.ltb_spec 0 (len slice)); [|lia].
  change (wrap_int (0 + 0)) with 0.
  destruct (Z.gtb_spec 0 (len slice)); [lia|].
  rewrite slice_expr_Some by lia. by apply IH.
Qed.

(** [chunkSize < 0]: the first slice expression has a negative upper bound. *)
Lemma ChunkSlice_negative {T} (slice : list T) chunkSize fuel :
  int_min <= chunkSize < 0 -> slice <> [] ->
  ChunkSlice (S fuel) slice chunkSize = Panicked.
Proof.
  intros Hc Hne. unfold ChunkSlice. cbn [ChunkSlice_loop].
  assert (0 < len slice) as Hlen.
  { destruct slice; [done | unfold len; simpl; lia]. }
  destruct (Z.ltb_spec 0 (len slice)); [|lia].
  rewrite Z.add_0_l, wrap_int_id by (unfold in_int, int_min, int_max in *; lia).
  destruct (Z.gtb_spec chunkSize (len slice)); [lia|].
  unfold slice_expr. destruct (Z.leb_spec 0 chunkSize); [lia|]. done.
Qed.

(** C5 (amended).  For a non-empty slice of at most 2^62 elements (so that
    the [int] sums of the loop cannot wrap around) and a positive chunk size,
    [ChunkSlice] returns chunks that are consecutive pieces of the slice in
    order: their concatenation is the slice; every chunk has at least one
    and at most [chunkSize] elements, every chunk but the last has exactly
    [chunkSize], and chunk [j] is the piece that starts at index
    [j * chunkSize]. *)
Theorem ChunkSlice_partitions {T} (slice : list T) (chunkSize : Z) :
  slice <> [] -> 0 < chunkSize <= int_max -> len slice <= 2 ^ 62 ->
  exists chunks,
    (forall fuel, (length slice < fuel)%nat ->
       ChunkSlice fuel slice chunkSize = Returned chunks)
    /\ concat chunks = slice
    /\ Forall (fun c => 0 < len c <= chunkSize) chunks
    /\ (forall j c, chunks !! j = Some c -> (S j < length chunks)%nat ->
          len c = chunkSize)
    /\ (forall j c, chunks !! j = Some c ->
          c = take (Z.to_nat chunkSize) (drop (j * Z.to_nat chunkSize) slice)).
Proof.
  intros Hne Hc Hlen.
  destruct (ChunkSlice_returns slice chunkSize Hc Hlen) as (chunks & Hrun & Hck).
  exists chunks. split; [done|]. split; [apply Hck|]. split; [apply Hck|].
  split; [apply Hck|]. intros j c Hj. apply (chunked_lookup chunkSize chunks); [lia|done..].
Qed.

Lemma ChunkSlice_partitions_witness :
  exists chunks,
    (forall fuel, (length [1; 2; 3; 4; 5] < fuel)%nat ->
       ChunkSlice fuel [1; 2; 3; 4; 5] 2 = Returned chunks)
    /\ concat chunks = [1; 2; 3; 4; 5]
    /\ Forall (fun c => 0 < len c <= 2) chunks
    /\ (forall j c, chunks !! j = Some c -> (S j < length chunks)%nat -> len c = 2)
    /\ (forall j c, chunks !! j = Some c ->
          c = take (Z.to_nat 2) (drop (j * Z.to_nat 2) [1; 2; 3; 4; 5])).
Proof.
  apply (ChunkSlice_partitions [1; 2; 3; 4; 5] 2).
  - discriminate.
  - unfold int_max. lia.
  - unfold len. simpl. lia.
Defined.

Example ChunkSlice_five_by_two :
  ChunkSlice 6 [1; 2; 3; 4; 5] 2 = Returned [[1; 2]; [3; 4]; [5]].
Proof. reflexivity. Qed.

(** C10 (amended).  With [chunkSize >= 1] the loop ends for every slice
    (the index grows by [chunkSize] in every iteration), and [ChunkSlice]
    returns its chunks when the slice has at most 2^62 elements, so that the
    index cannot wrap around.  Nothing in the function guards against a
    chunk size below 1: on a non-empty slice the loop never ends with
    [chunkSize = 0], whatever the fuel, and with a negative [chunkSize] the
    first iteration panics in its slice expression, so that the call ends
    without returning. *)
Theorem ChunkSlice_terminates {T} (slice : list T) (chunkSize : Z) :
  (1 <= chunkSize <= int_max -> len slice <= int_max ->
     forall fuel, (length slice < fuel)%nat ->
       ChunkSlice fuel slice chunkSize <> OutOfFuel)
  /\ (1 <= chunkSize <= int_max -> len slice <= 2 ^ 62 ->
       exists chunks, forall fuel, (length slice < fuel)%nat ->
         ChunkSlice fuel slice chunkSize = Returned chunks)
  /\ (chunkSize = 0 -> slice <> [] ->
        forall fuel, ChunkSlice fuel slice chunkSize = OutOfFuel)
  /\ (int_min <= chunkSize < 0 -> slice <> [] ->
        forall fuel, ChunkSlice (S fuel) slice chunkSize = Panicked).
Proof.
  split; [|split; [|split]].
  - intros Hc Hlen fuel Hfuel.
    apply (ChunkSlice_loop_halts slice chunkSize (length slice)); unfold len in *; lia.
  - intros Hc Hlen.
    destruct (ChunkSlice_returns slice chunkSize ltac:(lia) Hlen) as (chunks & Hrun & _).
    by exists chunks.
  - intros -> Hne fuel. by apply ChunkSlice_loop_zero.
  - intros Hc Hne fuel. by apply ChunkSlice_negative.
Qed.

Lemma ChunkSlice_terminates_witness :
  (forall fuel, (length [1; 2; 3] < fuel)%nat -> ChunkSlice fuel [1; 2; 3] 2 <> OutOfFuel)
  /\ (exists chunks, forall fuel, (length [1; 2; 3] < fuel)%nat ->
        ChunkSlice fuel [1; 2; 3] 2 = Returned chunks)
  /\ (forall fuel, ChunkSlice fuel [1; 2; 3] 0 = OutOfFuel)
  /\ (forall fuel, ChunkSlice (S fuel) [1; 2; 3] (-1) = Panicked).
Proof.
  split; [|split; [|split]].
  - apply (proj1 (ChunkSlice_terminates [1; 2; 3] 2)).
    + unfold int_max. lia.
    + unfold len, int_max. simpl. lia.
  - apply (proj1 (proj2 (ChunkSlice_terminates [1; 2; 3] 2))).
    + unfold int_max. lia.
    + unfold len. simpl. lia.
  - apply (proj1 (proj2 (proj2 (ChunkSlice_terminates [1; 2; 3] 0))));
      [reflexivity | discriminate].
  - apply (proj2 (proj2 (proj2 (ChunkSlice_terminates [1; 2; 3] (-1)))));
      [unfold int_min; lia | discriminate].
Defined.

(** Beyond 2^62 elements the sum [i + chunkSize] can pass the largest
    [int]: with a chunk size between 2^62 and the length, the second
    iteration computes a negative [end] and its slice expression panics. *)
Lemma ChunkSlice_sum_wraps {T} (slice : list T) (chunkSize : Z) (fuel : nat) :
  2 ^ 62 <= chunkSize -> chunkSize < len slice -> len slice <= int_max ->
  ChunkSlice (S (S fuel)) slice chunkSize = Panicked.
Proof.
  intros Hc Hlt Hmax. unfold ChunkSlice, int_max in *.
  cbn [ChunkSlice_loop].
  destruct (Z.ltb_spec 0 (len slice)); [|lia].
  rewrite Z.add_0_l, wrap_int_id by (unfold in_int, int_min, int_max; lia).
  destruct (Z.gtb_spec chunkSize (len slice)); [lia|].
  rewrite slice_expr_Some by lia.
  destruct (Z.ltb_spec chunkSize (len slice)); [|lia].
  assert (wrap_int (chunkSize + chunkSize) < 0) as Hneg.
  { unfold wrap_int.
    replace (chunkSize + chunkSize + 2 ^ 63)
      with (chunkSize + chunkSize + 2 ^ 63 - 2 ^ 64 + 1 * 2 ^ 64) by lia.
    rewrite Z_mod_plus_full, Z.mod_small; lia. }
  destruct (Z.gtb_spec (wrap_int (chunkSize + chunkSize)) (len slice)); [lia|].
  unfold slice_expr.
  destruct (Z.leb_spec chunkSize (wrap_int (chunkSize + chunkSize))); [lia|].
  by rewrite andb_false_r.
Qed.

(** In that case no amount of fuel makes [ChunkSlice] return. *)
Lemma ChunkSlice_sum_wraps_never_returns {T} (slice : list T) (chunkSize : Z) :
  2 ^ 62 <= chunkSize -> chunkSize < len slice -> len slice <= int_max ->
  forall fuel chunks, ChunkSlice fuel slice chunkSize <> Returned chunks.
Proof.
  intros Hc Hlt Hmax [|[|fuel]] chunks.
  - discriminate.
  - unfold ChunkSlice. cbn [ChunkSlice_loop].
    destruct (Z.ltb_spec 0 (len slice)); [|lia].
    destruct (slice_expr _ _ _); discriminate.
  - by rewrite ChunkSlice_sum_wraps.
Qed.

(** A slice of 2^62 + 2 elements of size zero. *)
Definition long_slice : list unit := replicate (Z.to_nat (2 ^ 62 + 2)) tt.

Lemma len_long_slice : len long_slice = 2 ^ 62 + 2.
Proof. unfold len, long_slice. rewrite length_replicate. apply Z2Nat.id. lia. Qed.

Lemma long_slice_nonempty : long_slice <> [].
Proof.
  intros Hnil. pose proof len_long_slice as Hlen.
  rewrite Hnil in Hlen. unfold len in Hlen. simpl in Hlen. lia.
Qed.

(** C5, as stated, fails for a slice long enough for the index sum to wrap
    around: on 2^62 + 2 elements and the positive chunk size 2^62 + 1,
    [ChunkSlice] panics in its second iteration and returns no chunks. *)
Lemma ChunkSlice_partitions_counterexample :
  long_slice <> []
  /\ 0 < 2 ^ 62 + 1
  /\ ChunkSlice 2 long_slice (2 ^ 62 + 1) = Panicked
  /\ forall fuel chunks, ChunkSlice fuel long_slice (2 ^ 62 + 1) <> Returned chunks.
Proof.
  pose proof len_long_slice as Hlen.
  split; [apply long_slice_nonempty|]. split; [lia|]. split.
  - apply ChunkSlice_sum_wraps; rewrite ?Hlen; unfold int_max; lia.
  - apply ChunkSlice_sum_wraps_never_returns; rewrite ?Hlen; unfold int_max; lia.
Qed.

(** C10, as stated, fails whichever way termination is read.  If a call
    that panics has terminated, a negative chunk size terminates on a
    non-empty slice, outside the precondition; if only a call that returns
    has, a chunk size of at least 1 does not terminate on a slice long
    enough for the index sum to wrap around. *)
Lemma ChunkSlice_terminates_counterexample :
  ([tt] <> [] /\ ~ 1 <= -1 /\ ChunkSlice 1 [tt] (-1) = Panicked)
  /\ (1 <= 2 ^ 62 + 1
      /\ forall fuel chunks, ChunkSlice fuel long_slice (2 ^ 62 + 1) <> Returned chunks).
Proof.
  pose proof len_long_slice as Hlen.
  split; [split; [discriminate | split; [lia | reflexivity]]|].
  split; [lia|].
  apply ChunkSlice_sum_wraps_never_returns; rewrite ?Hlen; unfold int_max; lia.
Qed.

(** [Map]: once the loop has passed index [i], the first [i] elements stay
    and the rest of the output is the image of the rest of the input. *)
Lemma Map_loop_spec {T U} (f : T -> U) (ts : list T) : forall i us,
  length us = (i + length ts)%nat ->
  Map_loop f ts i us = take i us ++ (f <$> ts).
Proof.
  induction ts as [|t ts IH]; intros i us Hlen; simpl in *.
  - rewrite app_nil_r, take_ge; [done | lia].
  - rewrite IH by (rewrite length_insert; lia).
    rewrite (take_S_r _ _ (f t)) by (apply list_lookup_insert_eq; lia).
    rewrite take_insert_ge by lia. by rewrite <- app_assoc.
Qed.

Lemma Map_fmap {T U} (zero_U : U) (ts : list T) (f : T -> U) :
  Map zero_U ts f = f <$> ts.
Proof.
  unfold Map. rewrite Map_loop_spec by (rewrite length_replicate; lia). done.
Qed.

(** C8.  Where the checked assertion of a converted element to the target
    type fails, [MapDto] puts the zero value of the target type at that
    position of its output.  The helper has no error result: it returns a
    slice with one element for every element of the input. *)
Theorem MapDto_assertion_fails {M E T any : Type} (ToEntity : M -> E)
    (to_any : E -> any) (assert_T : any -> option T) (zero_T : T)
    (modelArray : list M) (dtoType : T) (i : nat) (ce : M) :
  modelArray !! i = Some ce ->
  assert_T (to_any (ToEntity ce)) = None ->
  MapDto ToEntity to_any assert_T zero_T modelArray dtoType !! i = Some zero_T
  /\ length (MapDto ToEntity to_any assert_T zero_T modelArray dtoType)
     = length modelArray.
Proof.
  intros Hi Hfail. unfold MapDto. rewrite Map_fmap. split.
  - rewrite list_lookup_fmap, Hi. simpl. by rewrite Hfail.
  - apply length_fmap.
Qed.

(** Where the assertion succeeds the element is the asserted value. *)
Lemma MapDto_assertion_holds {M E T any : Type} (ToEntity : M -> E)
    (to_any : E -> any) (assert_T : any -> option T) (zero_T : T)
    (modelArray : list M) (dtoType : T) (i : nat) (ce : M) (v : T) :
  modelArray !! i = Some ce ->
  assert_T (to_any (ToEntity ce)) = Some v ->
  MapDto ToEntity to_any assert_T zero_T modelArray dtoType !! i = Some v.
Proof.
  intros Hi Hok. unfold MapDto. rewrite Map_fmap.
  rewrite list_lookup_fmap, Hi. simpl. by rewrite Hok.
Qed.

(** ** The error of the conversion to float64 *)

Module Float64Error.
Import Float64 Float64Facts.

Lemma round_half_even_error n d :
  0 < d -> 2 * Z.abs (round_half_even n d * d - n) <= d.
Proof.
  intros Hd. unfold round_half_even.
  pose proof (Z.div_mod n d ltac:(lia)) as Hnd.
  pose proof (Z.mod_pos_bound n d Hd) as Hr.
  destruct (Z.ltb_spec (2 * (n mod d)) d); [nia|].
  destruct (Z.ltb_spec d (2 * (n mod d))); [nia|].
  destruct (Z.even (n / d)); nia.
Qed.

(** [float64(z)] for a non-negative [int]: an integer within 512 of [z],
    and [z] itself up to 2^53. *)
Lemma of_int_error z :
  0 <= z <= int_max ->
  exists v, of_int z = mkF v 0 /\ Z.abs (v - z) <= 512 /\ 0 <= v
            /\ (z <= 2 ^ 53 -> v = z).
Proof.
  intros [Hz0 Hzmax].
  destruct (Z.le_gt_cases z (2 ^ 53)) as [Hsmall|Hbig].
  - exists z. rewrite of_int_exact by lia. repeat split; lia.
  - unfold of_int. eexists. split; [reflexivity|].
    rewrite (Z.abs_eq z), Z.sgn_pos, Z.mul_1_l by lia.
    assert (Z.log2 z < 63) as Hlog by (apply Z.log2_lt_pow2; unfold int_max in *; lia).
    assert (53 <= Z.log2 z) as Hlog' by (apply Z.log2_le_pow2; lia).
    rewrite Z.max_r by lia.
    set (e := Z.log2 z - 52) in *.
    assert (0 < 2 ^ e) as Hp by (apply Z.pow_pos_nonneg; lia).
    assert (2 ^ e <= 2 ^ 10) as Hp' by (apply Z.pow_le_mono_r; lia).
    change (2 ^ 10) with 1024 in Hp'.
    pose proof (round_half_even_error z (2 ^ e) Hp) as Herr.
    pose proof (round_half_even_bounds z (2 ^ e) Hp) as [Hlo _].
    assert (0 <= z / 2 ^ e) by (apply Z.div_pos; lia).
    repeat split; [lia | nia | lia].
Qed.

End Float64Error.

(** ** More about the helpers *)

Lemma chunked_tail {T} n (c : list T) cs l :
  chunked n (c :: cs) l -> chunked n cs (concat cs).
Proof.
  intros (Hcat & Hall & Hlast). apply Forall_cons in Hall as [_ Hall].
  repeat split; [done|].
  intros j c' Hj Hlt. apply (Hlast (S j)); [done | simpl; lia].
Qed.

(** A chunking with [k] chunks covers more than [k - 1] and at most [k]
    full chunks. *)
Lemma chunked_length {T} n (cs : list (list T)) : forall l,
  chunked n cs l -> cs <> [] ->
  (Z.of_nat (length cs) - 1) * n < len l <= Z.of_nat (length cs) * n.
Proof.
  induction cs as [|c cs IH]; intros l Hck Hne; [done|].
  pose proof (chunked_tail _ _ _ _ Hck) as Htail.
  destruct Hck as (Hcat & Hall & Hlast).
  apply Forall_cons in Hall as [Hc _]. cbv beta in Hc.
  simpl in Hcat. subst l. unfold len in *. rewrite length_app.
  destruct cs as [|c1 cs].
  - simpl. lia.
  - specialize (IH _ Htail ltac:(done)).
    assert (Z.of_nat (length c) = n) as Hfull.
    { apply (Hlast 0%nat c eq_refl). simpl. lia. }
    change (length (c :: c1 :: cs)) with (S (length (c1 :: cs))).
    set (k := length (c1 :: cs)) in *.
    set (m := length (concat (c1 :: cs))) in *. nia.
Qed.

(** The number of chunks is the ceiling of [len(slice) / chunkSize]; an
    empty slice gives none. *)
Theorem ChunkSlice_chunk_count {T} (slice : list T) (chunkSize : Z) :
  0 < chunkSize <= int_max -> len slice <= 2 ^ 62 ->
  exists chunks,
    (forall fuel, (length slice < fuel)%nat ->
       ChunkSlice fuel slice chunkSize = Returned chunks)
    /\ Z.of_nat (length chunks) = ceiling (len slice) chunkSize.
Proof.
  intros Hc Hlen.
  destruct (ChunkSlice_returns slice chunkSize Hc Hlen) as (chunks & Hrun & Hck).
  exists chunks. split; [done|].
  destruct chunks as [|c chunks].
  - destruct Hck as (<- & _). reflexivity.
  - symmetry. apply Float64Facts.ceiling_unique; [lia|].
    apply (chunked_length chunkSize (c :: chunks)); done.
Qed.

Lemma ChunkSlice_chunk_count_witness :
  exists chunks,
    (forall fuel, (length [1; 2; 3; 4; 5; 6; 7] < fuel)%nat ->
       ChunkSlice fuel [1; 2; 3; 4; 5; 6; 7] 3 = Returned chunks)
    /\ Z.of_nat (length chunks) = ceiling (len [1; 2; 3; 4; 5; 6; 7]) 3.
Proof.
  apply (ChunkSlice_chunk_count [1; 2; 3; 4; 5; 6; 7] 3).
  - unfold int_max. lia.
  - unfold len. simpl. lia.
Defined.

(** With a chunk size of 0 or less, [ChunkSlice] returns exactly when the
    slice is empty: the loop is then never entered and there is no chunk. *)
Theorem ChunkSlice_nonpositive {T} (slice : list T) (chunkSize : Z) :
  int_min <= chunkSize <= 0 ->
  ((exists fuel chunks, ChunkSlice fuel slice chunkSize = Returned chunks)
   <-> slice = [])
  /\ (slice = [] -> forall fuel, ChunkSlice (S fuel) slice chunkSize = Returned []).
Proof.
  intros Hc. split; [split|].
  - intros (fuel & chunks & Hrun). destruct slice as [|x slice]; [done|]. exfalso.
    destruct (Z.eq_dec chunkSize 0) as [->|Hneg].
    + unfold ChunkSlice in Hrun. by rewrite ChunkSlice_loop_zero in Hrun.
    + destruct fuel as [|fuel]; [done|].
      rewrite ChunkSlice_negative in Hrun; [done | lia | done].
  - intros ->. by exists 1%nat, [].
  - by intros -> fuel.
Qed.

Lemma ChunkSlice_nonpositive_witness :
  int_min <= 0 <= 0
  /\ forall fuel, ChunkSlice (S fuel) (@nil Z) 0 = Returned [].
Proof.
  assert (int_min <= 0 <= 0) as H by (unfold int_min; lia).
  split; [exact H|].
  exact (proj2 (ChunkSlice_nonpositive (@nil Z) 0 H) eq_refl).
Defined.

(** A chunk size of at least the length gives one chunk, the slice itself,
    whatever the length. *)
Theorem ChunkSlice_single {T} (slice : list T) (chunkSize : Z) (fuel : nat) :
  slice <> [] -> len slice <= chunkSize <= int_max ->
  ChunkSlice (S (S fuel)) slice chunkSize = Returned [slice].
Proof.
  intros Hne [Hge Hmax]. unfold ChunkSlice.
  assert (0 < len slice) as Hpos.
  { destruct slice; [done | unfold len; simpl; lia]. }
  cbn [ChunkSlice_loop].
  destruct (Z.ltb_spec 0 (len slice)); [|lia].
  rewrite Z.add_0_l, wrap_int_id by (unfold in_int, int_min, int_max in *; lia).
  assert ((if chunkSize >? len slice then len slice else chunkSize) = len slice) as ->.
  { destruct (Z.gtb_spec chunkSize (len slice)); lia. }
  rewrite slice_expr_Some by lia.
  destruct (Z.ltb_spec chunkSize (len slice)); [lia|].
  rewrite Z.sub_0_r. change (Z.to_nat 0) with 0%nat. rewrite drop_0.
  rewrite take_ge by (unfold len; lia). done.
Qed.

Lemma ChunkSlice_single_witness :
  [1; 2; 3] <> []
  /\ len [1; 2; 3] <= 5 <= int_max
  /\ ChunkSlice 2 [1; 2; 3] 5 = Returned [[1; 2; 3]].
Proof.
  assert ([1; 2; 3] <> []) as H1 by discriminate.
  assert (len [1; 2; 3] <= 5 <= int_max) as H2 by (unfold len, int_max; simpl; lia).
  split; [exact H1|]. split; [exact H2|].
  exact (ChunkSlice_single [1; 2; 3] 5 0 H1 H2).
Defined.

(** [Map] gives one output per input, the image of the input at the same
    index; none of the zero values it allocates is left in the result. *)
Theorem Map_pointwise {T U} (zero_U : U) (ts : list T) (f : T -> U) :
  length (Map zero_U ts f) = length ts
  /\ (forall i t, ts !! i = Some t -> Map zero_U ts f !! i = Some (f t))
  /\ (forall zero', Map zero' ts f = Map zero_U ts f).
Proof.
  rewrite Map_fmap. split; [apply length_fmap|]. split.
  - intros i t Hi. by rewrite list_lookup_fmap, Hi.
  - intros zero'. apply Map_fmap.
Qed.

Lemma Map_pointwise_witness :
  [1; 2; 3] !! 1%nat = Some 2
  /\ Map 0 [1; 2; 3] (fun t => t * 10) !! 1%nat = Some 20.
Proof.
  split; [reflexivity|].
  exact (proj1 (proj2 (Map_pointwise 0 [1; 2; 3] (fun t => t * 10))) 1%nat 2 eq_refl).
Defined.

Lemma concat_Map {T U} (zero_U : U) (f : T -> U) (chunks : list (list T)) :
  concat (Map [] chunks (fun chunk => Map zero_U chunk f)) = f <$> concat chunks.
Proof.
  rewrite Map_fmap. induction chunks as [|c chunks IH]; csimpl; [done|].
  by rewrite Map_fmap, fmap_app, IH.
Qed.

(** Mapping chunk by chunk and concatenating is mapping the slice. *)
Theorem Map_ChunkSlice {T U} (zero_U : U) (slice : list T) (chunkSize : Z)
    (f : T -> U) :
  0 < chunkSize <= int_max -> len slice <= 2 ^ 62 ->
  exists chunks,
    (forall fuel, (length slice < fuel)%nat ->
       ChunkSlice fuel slice chunkSize = Returned chunks)
    /\ concat (Map [] chunks (fun chunk => Map zero_U chunk f)) = Map zero_U slice f.
Proof.
  intros Hc Hlen.
  destruct (ChunkSlice_returns slice chunkSize Hc Hlen) as (chunks & Hrun & Hck).
  exists chunks. split; [done|].
  destruct Hck as (Hcat & _). by rewrite concat_Map, Hcat, Map_fmap.
Qed.

Lemma Map_ChunkSlice_witness :
  exists chunks,
    (forall fuel, (length [1; 2; 3; 4; 5] < fuel)%nat ->
       ChunkSlice fuel [1; 2; 3; 4; 5] 2 = Returned chunks)
    /\ concat (Map [] chunks (fun chunk => Map 0 chunk (fun t => t + 1)))
       = Map 0 [1; 2; 3; 4; 5] (fun t => t + 1).
Proof.
  apply (Map_ChunkSlice 0 [1; 2; 3; 4; 5] 2 (fun t => t + 1)).
  - unfold int_max. lia.
  - unfold len. simpl. lia.
Defined.

(** [MapDto] when the assertion has the same outcome for every element: if
    it fails for each (the target type is not the type of the converted
    values), the result is as many zero values as there are models; if it
    succeeds for each, the result is the asserted values in order. *)
Theorem MapDto_uniform {M E T any : Type} (ToEntity : M -> E)
    (to_any : E -> any) (assert_T : any -> option T) (zero_T : T)
    (modelArray : list M) (dtoType : T) :
  ((forall ce, ce ∈ modelArray -> assert_T (to_any (ToEntity ce)) = None) ->
     MapDto ToEntity to_any assert_T zero_T modelArray dtoType
     = replicate (length modelArray) zero_T)
  /\ (forall cast : E -> T,
        (forall ce, ce ∈ modelArray ->
           assert_T (to_any (ToEntity ce)) = Some (cast (ToEntity ce))) ->
        MapDto ToEntity to_any assert_T zero_T modelArray dtoType
        = (fun ce => cast (ToEntity ce)) <$> modelArray).
Proof.
  unfold MapDto. rewrite Map_fmap. split.
  - intros Hfail. induction modelArray as [|ce l IH]; csimpl; [done|].
    rewrite Hfail by apply list_elem_of_here. f_equal.
    apply IH. intros ce' Hin. apply Hfail. by apply list_elem_of_further.
  - intros cast Hok. induction modelArray as [|ce l IH]; csimpl; [done|].
    rewrite Hok by apply list_elem_of_here. f_equal.
    apply IH. intros ce' Hin. apply Hok. by apply list_elem_of_further.
Qed.

(** ** The generic repository *)

Module GormRepository.
Import gorm.
Section Repository.
(** The model type [M] with its [GormModel[E]] methods, the entity type
    [E], interface values [any], contexts, errors and the database. *)
Context {M E any Ctx Error World : Type}.
Variable ToEntity : M -> E.
Variable FromEntity : M -> E -> any.
(** The zero values [var start M] and [*new(E)]. *)
Variable zero_M : M.
Variable zero_E : E.
(** The type assertion [x.(M)]: [Some m] when the dynamic type of [x] is
    [M].  The repository uses the unchecked form, which panics on [None]. *)
Variable assert_M : any -> option M.
Variable driver : Driver M any Ctx Error World.
(** What [int(f)] and [int64(f)] give for a float outside the integer
    range; Go leaves the value to the implementation. *)
Variable int_out_of_range : Float64.float64 -> Z.

Local Abbreviation DB := (gorm.DB M any Ctx).
Local Abbreviation DBM := (gorm.DBM M any Ctx World).

Record t := mk { db : DB }.

Definition NewRepository (db : DB) : t := mk db.

(** [int(f)] and [int64(f)] for a float [f]. *)
Definition int_of_float (f : Float64.float64) : Z :=
  let z := Float64.trunc f in
  if (int_min <=? z) && (z <=? int_max) then z else int_out_of_range f.

(** The methods with a pointer parameter return, besides their [error], the
    value the pointer refers to when they are done. *)

Definition Insert (r : t) (ctx : Ctx) (entity : E)
    : DBM (outcome (E * option Error)) :=
  let start := zero_M in
  match assert_M (FromEntity start entity) with
  | None => ret Panicked
  | Some model =>
      let* '(model, err) := Create driver (WithContext (db r) ctx) model in
      match err with
      | Some err => ret (Returned (entity, Some err))
      | None => ret (Returned (ToEntity model, None))
      end
  end.

Definition InsertDirect (r : t) (ctx : Ctx) (entity : M)
    : DBM (M * option Error) :=
  let* '(entity, err) := Create driver (WithContext (db r) ctx) entity in
  match err with
  | Some err => ret (entity, Some err)
  | None => ret (entity, None)
  end.

Definition InsertFromInterface (r : t) (ctx : Ctx) (data : any)
    : DBM (option Error) :=
  let* err := CreateAny driver (WithContext (db r) ctx) data in
  match err with
  | Some err => ret (Some err)
  | None => ret None
  end.

Definition Delete (r : t) (ctx : Ctx) (entity : E)
    : DBM (outcome (option Error)) :=
  let start := zero_M in
  match assert_M (FromEntity start entity) with
  | None => ret Panicked
  | Some model =>
      let* err := gorm.Delete driver (WithContext (db r) ctx) model [] in
      match err with
      | Some err => ret (Returned (Some err))
      | None => ret (Returned None)
      end
  end.

Definition DeleteById (r : t) (ctx : Ctx) (id : any) : DBM (option Error) :=
  let start := zero_M in
  let* err := gorm.Delete driver (WithContext (db r) ctx) start [id] in
  match err with
  | Some err => ret (Some err)
  | None => ret None
  end.

Definition Update (r : t) (ctx : Ctx) (entity : E)
    : DBM (outcome (E * option Error)) :=
  let start := zero_M in
  match assert_M (FromEntity start entity) with
  | None => ret Panicked
  | Some model =>
      let* '(model, err) := Save driver (WithContext (db r) ctx) model in
      match err with
      | Some err => ret (Returned (entity, Some err))
      | None => ret (Returned (ToEntity model, None))
      end
  end.

Definition UpdateDirect (r : t) (ctx : Ctx) (entity : M)
    : DBM (M * option Error) :=
  let* '(entity, err) := Save driver (WithContext (db r) ctx) entity in
  match err with
  | Some err => ret (entity, Some err)
  | None => ret (entity, None)
  end.

Definition FindByID (r : t) (ctx : Ctx) (id : any) : DBM (E * option Error) :=
  let* '(model, err) := First driver (WithContext (db r) ctx) [id] in
  match err with
  | Some err => ret (zero_E, Some err)
  | None => ret (ToEntity model, None)
  end.

Definition FindByIDWithOptions (r : t) (ctx : Ctx) (id : any) (eagerLoad : bool)
    : DBM (E * option Error) :=
  let* '(model, err) :=
    First driver (Preload (WithContext (db r) ctx) Associations) [id] in
  match err with
  | Some err => ret (zero_E, Some err)
  | None => ret (ToEntity model, None)
  end.

Definition FindByModel (r : t) (ctx : Ctx) (entity : M) : DBM (M * option Error) :=
  let* '(model, err) :=
    First driver
      (Where (Preload (WithContext (db r) ctx) Associations) (QueryModel entity) [])
      [] in
  match err with
  | Some err => ret (zero_M, Some err)
  | None => ret (model, err)
  end.

Definition FindByModelMulti (r : t) (ctx : Ctx) (entity : M)
    : DBM (list M * option Error) :=
  let* '(models, result_Error) := Find driver (Where (db r) (QueryModel entity) []) in
  match result_Error with
  | Some err => ret ([], Some err)
  | None => ret (models, None)
  end.

Definition getPreWarmDbForSelect (r : t) (ctx : Ctx)
    (specification : list (Specification any)) : DB :=
  let dbPrewarm := WithContext (db r) ctx in
  foldl (fun dbPrewarm s => Where dbPrewarm (QueryString (GetQuery s)) (GetValues s))
        dbPrewarm specification.

(** [for _, row := range models { result = append(result, row.ToEntity()) }] *)
Definition entities_of (models : list M) : list E :=
  foldl (fun result row => result ++ [ToEntity row]) [] models.

Definition FindWithLimit (r : t) (ctx : Ctx) (limit offset : Z)
    (specifications : list (Specification any)) : DBM (list E * option Error) :=
  let dbPrewarm := getPreWarmDbForSelect r ctx specifications in
  let* '(models, err) := Find driver (Offset (Limit dbPrewarm limit) offset) in
  match err with
  | Some err => ret ([], Some err)
  | None => ret (entities_of models, None)
  end.

Definition Find (r : t) (ctx : Ctx) (specifications : list (Specification any))
    : DBM (list E * option Error) :=
  FindWithLimit r ctx (-1) (-1) specifications.

Definition FindPaged (r : t) (ctx : Ctx) (specifications : list (Specification any))
    : DBM (list E * option Error) :=
  FindWithLimit r ctx (-1) (-1) specifications.

Definition Count (r : t) (ctx : Ctx) (specifications : list (Specification any))
    : DBM (Z * option Error) :=
  let model := zero_M in
  gorm.Count driver (Model (getPreWarmDbForSelect r ctx specifications) model).

(** The count step of [FindPagedWithLimit]: the page result so far, or the
    error it returns with. *)
Definition count_step (dbPrewarm : DB) (minLimit : Float64.float64)
    (shouldCount : bool) (rs : PageResult.t M)
    : DBM (PageResult.t M + Error) :=
  if shouldCount then
    let model := zero_M in
    let* '(elementCount, er_Error) := gorm.Count driver (Model dbPrewarm model) in
    match er_Error with
    | Some err => ret (inr err)
    | None =>
        ret (inl (PageResult.mk (PageResult.Data rs)
                    (int_of_float
                       (Float64.Ceil (Float64.div (Float64.of_int elementCount) minLimit)))
                    (PageResult.Page rs)))
    end
  else ret (inl rs).

Definition FindPagedWithLimit (r : t) (ctx : Ctx) (pageCfg : PageConfig.t)
    (specifications : list (Specification any))
    : DBM (PageResult.t M * option Error) :=
  let dbPrewarm := getPreWarmDbForSelect r ctx specifications in
  let rs := PageResult.mk [] 0 (PageConfig.Page pageCfg) in
  let minLimit := Float64.Max (Float64.mkF 1 0) (Float64.of_int (PageConfig.Size pageCfg)) in
  let shouldCount :=
    PageConfig.ForceCount pageCfg
    || ((PageConfig.Page pageCfg =? 0) && negb (PageConfig.IgnoreCount pageCfg)) in
  let* counted := count_step dbPrewarm minLimit shouldCount rs in
  match counted with
  | inr err => ret (rs, Some err)
  | inl rs =>
      let* '(models, err) :=
        gorm.Find driver
          (Offset (Limit dbPrewarm (int_of_float minLimit)) (PageConfig.Page pageCfg)) in
      match err with
      | Some err => ret (rs, Some err)
      | None => ret (PageResult.mk models (PageResult.Count rs) (PageResult.Page rs), None)
      end
  end.

Definition FindAll (r : t) (ctx : Ctx) : DBM (list E * option Error) :=
  FindWithLimit r ctx (-1) (-1) [].

Definition FromModelToDto (models : list M) : list E :=
  let result := [] in
  if (len models =? 0) then result
  else foldl (fun result row => result ++ [ToEntity row]) result models.

Definition FindByEntity (r : t) (ctx : Ctx) (e : any) : DBM (list E * option Error) :=
  let* '(models, result_Error) := gorm.Find driver (Where (db r) (QueryValue e) []) in
  ret (FromModelToDto models, result_Error).

Definition FindByEntityWithOptions (r : t) (ctx : Ctx) (e : any) (eagerLoad : bool)
    : DBM (list E * option Error) :=
  let* '(models, result_Error) :=
    gorm.Find driver (Preload (Where (db r) (QueryValue e) []) Associations) in
  ret (FromModelToDto models, result_Error).




(** *** The specifications folded into the query *)

(** The condition a specification contributes. *)
Definition spec_cond (s : Specification any) : Cond M any :=
  mkCond (QueryString (GetQuery s)) (GetValues s).

Lemma foldl_Where (specs : list (Specification any)) : forall d : DB,
  foldl (fun dbPrewarm s => Where dbPrewarm (QueryString (GetQuery s)) (GetValues s))
        d specs
  = mkDB (db_context d) (db_where d ++ (spec_cond <$> specs)) (db_limit d)
         (db_offset d) (db_preload d) (db_model d).
Proof.
  induction specs as [|s specs IH]; intros d; simpl.
  - rewrite app_nil_r. by destruct d.
  - rewrite IH. simpl. by rewrite <- app_assoc.
Qed.

Lemma getPreWarmDbForSelect_fields r ctx specs :
  getPreWarmDbForSelect r ctx specs
  = mkDB (Some ctx) (db_where (db r) ++ (spec_cond <$> specs)) (db_limit (db r))
         (db_offset (db r)) (db_preload (db r)) (db_model (db r)).
Proof. unfold getPreWarmDbForSelect. by rewrite foldl_Where. Qed.

(** C4.  The query-building step adds one condition per specification to the
    conditions of the handle, in the order of the specifications and each
    with its own values; nothing is dropped, merged or moved.  The bound
    values of the statement are the values of the specifications
    concatenated in that order, and a row is selected when it satisfies every
    specification: for [s1; s2], when it satisfies [s1] and [s2]. *)
Theorem getPreWarmDbForSelect_conjunction (r : t) (ctx : Ctx)
    (specs : list (Specification any)) :
  db_where (getPreWarmDbForSelect r ctx specs)
    = db_where (db r) ++ (spec_cond <$> specs)
  /\ bound_values (getPreWarmDbForSelect r ctx specs)
    = bound_values (db r) ++ concat (GetValues <$> specs)
  /\ (forall sat row,
        selects sat (getPreWarmDbForSelect r ctx specs) row
        = selects sat (db r) row && forallb (fun s => sat (spec_cond s) row) specs)
  /\ (forall sat row s1 s2,
        selects sat (getPreWarmDbForSelect r ctx [s1; s2]) row
        = selects sat (db r) row && (sat (spec_cond s1) row && sat (spec_cond s2) row)).
Proof.
  rewrite getPreWarmDbForSelect_fields. simpl. split; [done|]. split; [|split].
  - unfold bound_values. simpl. rewrite map_app, concat_app. f_equal.
    rewrite <- list_fmap_compose. done.
  - intros sat row. unfold selects. simpl. rewrite forallb_app. f_equal.
    induction specs as [|s specs IH]; csimpl; [done | by rewrite IH].
  - intros sat row s1 s2. rewrite getPreWarmDbForSelect_fields.
    unfold selects. simpl. rewrite forallb_app. simpl. by rewrite andb_true_r.
Qed.

(** *** Find, FindPaged, FindAll *)

Lemma entities_of_fmap models : entities_of models = ToEntity <$> models.
Proof.
  unfold entities_of.
  assert (forall acc, foldl (fun result row => result ++ [ToEntity row]) acc models
                      = acc ++ (ToEntity <$> models)) as H; [|apply H].
  induction models as [|m models IH]; intros acc; simpl.
  - by rewrite app_nil_r.
  - rewrite IH. by rewrite <- app_assoc.
Qed.

(** C6.  [Find] and [FindPaged] are the same computation, [FindWithLimit]
    with limit -1 and offset -1 and the specifications given; [FindAll] is
    [FindWithLimit] with limit -1, offset -1 and no specification.  The one
    query they run is the filtered one with [Limit(-1)] and [Offset(-1)], and
    on success they return the rows converted to entities. *)
Theorem Find_FindPaged_FindAll (r : t) (ctx : Ctx)
    (specs : list (Specification any)) (w : World) :
  Find r ctx specs = FindWithLimit r ctx (-1) (-1) specs
  /\ FindPaged r ctx specs = Find r ctx specs
  /\ FindAll r ctx = FindWithLimit r ctx (-1) (-1) []
  /\ calls (snd (run (Find r ctx specs) w))
     = [CallFind (Offset (Limit (getPreWarmDbForSelect r ctx specs) (-1)) (-1))]
  /\ (forall models w',
        drv_find driver (Offset (Limit (getPreWarmDbForSelect r ctx specs) (-1)) (-1)) w
          = ((models, None), w') ->
        fst (run (Find r ctx specs) w) = (ToEntity <$> models, None)).
Proof.
  repeat split.
  - unfold Find, FindWithLimit, run, bind, gorm.Find, finish. simpl.
    by destruct (drv_find _ _ _) as [[models [e|]] w'].
  - intros models w' Hfind.
    unfold Find, FindWithLimit, run, bind, gorm.Find, finish. simpl.
    rewrite Hfind. simpl. by rewrite entities_of_fmap.
Qed.

(** *** Paginated find *)

Import Float64 Float64Facts.

Lemma int_of_float_int z : in_int z -> int_of_float (mkF z 0) = z.
Proof.
  unfold in_int, int_of_float. intros Hz. rewrite trunc_int.
  destruct (Z.leb_spec int_min z); [|lia].
  destruct (Z.leb_spec z int_max); [done|lia].
Qed.

(** Whether [FindPagedWithLimit] counts. *)
Definition shouldCount (pageCfg : PageConfig.t) : bool :=
  PageConfig.ForceCount pageCfg
  || ((PageConfig.Page pageCfg =? 0) && negb (PageConfig.IgnoreCount pageCfg)).

(** [math.Max(1, float64(pageCfg.Size))] *)
Definition minLimit (pageCfg : PageConfig.t) : float64 :=
  Max (mkF 1 0) (of_int (PageConfig.Size pageCfg)).

(** The handle of the count query and the handle of the data query. *)
Definition count_query (r : t) (ctx : Ctx) (specs : list (Specification any)) : DB :=
  Model (getPreWarmDbForSelect r ctx specs) zero_M.

Definition data_query (r : t) (ctx : Ctx) (pageCfg : PageConfig.t)
    (specs : list (Specification any)) : DB :=
  Offset (Limit (getPreWarmDbForSelect r ctx specs) (int_of_float (minLimit pageCfg)))
         (PageConfig.Page pageCfg).

(** The three ways through [FindPagedWithLimit]: the count fails; no count
    or a count that succeeds, then the data query fails; or it succeeds. *)
Lemma FindPagedWithLimit_run r ctx pageCfg specs w :
  let page := PageConfig.Page pageCfg in
  let counted n :=
    int_of_float (Ceil (div (of_int n) (minLimit pageCfg))) in
  let find rs cs w1 :=
    match drv_find driver (data_query r ctx pageCfg specs) w1 with
    | ((models, Some err), w2) =>
        ((rs, Some err), mkSession w2 (cs ++ [CallFind (data_query r ctx pageCfg specs)]))
    | ((models, None), w2) =>
        ((PageResult.mk models (PageResult.Count rs) page, None),
         mkSession w2 (cs ++ [CallFind (data_query r ctx pageCfg specs)]))
    end in
  run (FindPagedWithLimit r ctx pageCfg specs) w
  = if shouldCount pageCfg then
      match drv_count driver (count_query r ctx specs) w with
      | ((n, Some err), w1) =>
          ((PageResult.mk [] 0 page, Some err),
           mkSession w1 [CallCount (count_query r ctx specs)])
      | ((n, None), w1) =>
          find (PageResult.mk [] (counted n) page)
               [CallCount (count_query r ctx specs)] w1
      end
    else find (PageResult.mk [] 0 page) [] w.
Proof.
  unfold FindPagedWithLimit, count_step, run, bind, ret, gorm.Count, gorm.Find,
    finish, data_query, count_query, minLimit, shouldCount.
  destruct (_ || _); simpl.
  - destruct (drv_count _ _ _) as [[n [e|]] w1]; simpl; [done|].
    by destruct (drv_find _ _ _) as [[models [e|]] w2].
  - by destruct (drv_find _ _ _) as [[models [e|]] w2].
Qed.

(** C3.  [FindPagedWithLimit] runs a COUNT query exactly when [ForceCount]
    is set, or [Page] is 0 and [IgnoreCount] is not set.  Otherwise it runs
    none, and the [Count] of the page result is 0. *)
Theorem FindPagedWithLimit_counts_iff (r : t) (ctx : Ctx) (pageCfg : PageConfig.t)
    (specs : list (Specification any)) (w : World) :
  filter is_count (calls (snd (run (FindPagedWithLimit r ctx pageCfg specs) w)))
  = (if PageConfig.ForceCount pageCfg
        || ((PageConfig.Page pageCfg =? 0) && negb (PageConfig.IgnoreCount pageCfg))
     then [CallCount (Model (getPreWarmDbForSelect r ctx specs) zero_M)]
     else [])
  /\ (PageConfig.ForceCount pageCfg
      || ((PageConfig.Page pageCfg =? 0) && negb (PageConfig.IgnoreCount pageCfg))
      = false ->
      PageResult.Count (fst (fst (run (FindPagedWithLimit r ctx pageCfg specs) w))) = 0).
Proof.
  rewrite FindPagedWithLimit_run. unfold shouldCount, count_query.
  destruct (_ || _); simpl.
  - split; [|done].
    destruct (drv_count _ _ _) as [[n [e|]] w1]; simpl; [done|].
    by destruct (drv_find _ _ _) as [[models [e|]] w2].
  - by destruct (drv_find _ _ _) as [[models [e|]] w2].
Qed.

(** The [LIMIT] of the data query: [max 1 Size] while [Size] needs no more
    than 53 bits. *)
Lemma int_of_float_minLimit pageCfg :
  PageConfig.Size pageCfg <= 2 ^ 53 ->
  int_of_float (minLimit pageCfg) = Z.max 1 (PageConfig.Size pageCfg).
Proof.
  intros Hsize. unfold minLimit.
  destruct (Max_one_of_int (PageConfig.Size pageCfg)) as (s & -> & Hs1 & Hs & _).
  rewrite int_of_float_int; [by apply Hs|].
  rewrite (Hs Hsize). unfold in_int, int_min, int_max. lia.
Qed.

(** C1 (amended).  For a page size of at most 2^53, the data query of
    [FindPagedWithLimit] is the query filtered by the specifications with
    [LIMIT] the requested size raised to at least 1 and [OFFSET] the
    requested page number itself.  It is run unless the count query fails.
    The page result echoes the page number, and when no error is returned
    its [Data] are the rows the data query fetched, as models. *)
Theorem FindPagedWithLimit_data_query (r : t) (ctx : Ctx) (pageCfg : PageConfig.t)
    (specs : list (Specification any)) (w : World) :
  PageConfig.Size pageCfg <= 2 ^ 53 ->
  let out := run (FindPagedWithLimit r ctx pageCfg specs) w in
  let finds := filter is_find (calls (snd out)) in
  Forall (fun c =>
            db_limit (call_db c) = Some (Z.max 1 (PageConfig.Size pageCfg))
            /\ db_offset (call_db c) = Some (PageConfig.Page pageCfg)
            /\ db_where (call_db c) = db_where (db r) ++ (spec_cond <$> specs))
         finds
  /\ (finds = [] ->
      exists n err w1,
        drv_count driver (Model (getPreWarmDbForSelect r ctx specs) zero_M) w
          = ((n, Some err), w1)
        /\ snd (fst out) = Some err)
  /\ PageResult.Page (fst (fst out)) = PageConfig.Page pageCfg
  /\ (snd (fst out) = None ->
      exists d w1,
        finds = [CallFind d]
        /\ drv_find driver d w1
           = ((PageResult.Data (fst (fst out)), None), world (snd out))).
Proof.
  intros Hsize. cbv zeta. rewrite FindPagedWithLimit_run. cbv zeta.
  assert (forall d, d = data_query r ctx pageCfg specs ->
            db_limit d = Some (Z.max 1 (PageConfig.Size pageCfg))
            /\ db_offset d = Some (PageConfig.Page pageCfg)
            /\ db_where d = db_where (db r) ++ (spec_cond <$> specs)) as Hquery.
  { intros d ->. unfold data_query. rewrite (int_of_float_minLimit _ Hsize).
    by rewrite getPreWarmDbForSelect_fields. }
  unfold count_query. destruct (shouldCount pageCfg).
  - destruct (drv_count _ _ _) as [[n [e|]] w1] eqn:Hcount; simpl.
    { repeat split; [constructor | | done]. intros _. by exists n, e, w1. }
    destruct (drv_find _ _ _) as [[models [e|]] w2] eqn:Hfind; simpl.
    + repeat split; [constructor; [by apply Hquery | constructor] | done | done].
    + repeat split; [constructor; [by apply Hquery | constructor] | done |].
      intros _. by eexists _, w1.
  - destruct (drv_find _ _ _) as [[models [e|]] w2] eqn:Hfind; simpl.
    + repeat split; [constructor; [by apply Hquery | constructor] | done | done].
    + repeat split; [constructor; [by apply Hquery | constructor] | done |].
      intros _. by eexists _, w.
Qed.

(** C2 (amended).  When the count query of [FindPagedWithLimit] returns a
    row count [R] of at most 2^53, the [Count] of the page result is the
    ceiling of [R / max 1 Size], whatever the data query does afterwards; for
    a requested size of 0 or less this is [R] itself. *)
Theorem FindPagedWithLimit_page_count (r : t) (ctx : Ctx) (pageCfg : PageConfig.t)
    (specs : list (Specification any)) (w w1 : World) (R : Z) :
  0 <= R <= 2 ^ 53 ->
  PageConfig.ForceCount pageCfg
  || ((PageConfig.Page pageCfg =? 0) && negb (PageConfig.IgnoreCount pageCfg)) = true ->
  drv_count driver (Model (getPreWarmDbForSelect r ctx specs) zero_M) w
    = ((R, None), w1) ->
  PageResult.Count (fst (fst (run (FindPagedWithLimit r ctx pageCfg specs) w)))
    = ceiling R (Z.max 1 (PageConfig.Size pageCfg))
  /\ (PageConfig.Size pageCfg <= 0 ->
      PageResult.Count (fst (fst (run (FindPagedWithLimit r ctx pageCfg specs) w))) = R).
Proof.
  intros HR Hcount Hdrv.
  assert (PageResult.Count (fst (fst (run (FindPagedWithLimit r ctx pageCfg specs) w)))
          = ceiling R (Z.max 1 (PageConfig.Size pageCfg))) as Heq.
  { rewrite FindPagedWithLimit_run. cbv zeta.
    unfold shouldCount, count_query. rewrite Hcount, Hdrv.
    assert (int_of_float (Ceil (div (of_int R) (minLimit pageCfg)))
            = ceiling R (Z.max 1 (PageConfig.Size pageCfg))) as Hc.
    { unfold minLimit.
      destruct (Max_one_of_int (PageConfig.Size pageCfg)) as (s & -> & Hs1 & Hs & Hl).
      rewrite Ceil_div_of_int by lia.
      assert (ceiling R s = ceiling R (Z.max 1 (PageConfig.Size pageCfg))) as Hceil.
      { destruct (Z.le_gt_cases (PageConfig.Size pageCfg) (2 ^ 53)) as [Hle|Hgt].
        - by rewrite (Hs Hle).
        - specialize (Hl ltac:(lia)).
          destruct (Z.eq_dec R 0) as [->|HR0]; [done|].
          rewrite !ceiling_small; [done | lia | lia]. }
      rewrite <- Hceil. apply int_of_float_int.
      assert (0 <= ceiling R s <= R); [|unfold in_int, int_min, int_max; lia].
      destruct (Z.eq_dec R 0) as [->|HR0]; [done|].
      pose proof (ceiling_bounds R s ltac:(lia)) as Hb. nia. }
    by destruct (drv_find _ _ _) as [[models [e|]] w2]. }
  split; [exact Heq|].
  intros Hsize. rewrite Heq, Z.max_l by lia. unfold ceiling.
  rewrite Z.div_1_r. lia.
Qed.

(** *** The unchecked assertion in Insert, Update and Delete *)

(** C9.  [Insert], [Update] and [Delete] assert the result of
    [FromEntity] to be a model without checking.  When the value is a model
    the assertion yields it and the operation goes on to its database call
    with that model, and returns.  When it is not, the call panics: nothing
    is returned, so no error is, and the database is not called. *)
Theorem unchecked_assertion (r : t) (ctx : Ctx) (entity : E)
    (s : Session M any Ctx World) :
  (forall model, assert_M (FromEntity zero_M entity) = Some model ->
     (exists res, fst (Insert r ctx entity s) = Returned res)
     /\ calls (snd (Insert r ctx entity s))
        = calls s ++ [CallCreate (WithContext (db r) ctx) model]
     /\ (exists res, fst (Update r ctx entity s) = Returned res)
     /\ calls (snd (Update r ctx entity s))
        = calls s ++ [CallSave (WithContext (db r) ctx) model]
     /\ (exists res, fst (Delete r ctx entity s) = Returned res)
     /\ calls (snd (Delete r ctx entity s))
        = calls s ++ [CallDelete (WithContext (db r) ctx) model []])
  /\ (assert_M (FromEntity zero_M entity) = None ->
      Insert r ctx entity s = (Panicked, s)
      /\ Update r ctx entity s = (Panicked, s)
      /\ Delete r ctx entity s = (Panicked, s)).
Proof.
  unfold Insert, Update, Delete, bind, ret, Create, Save, gorm.Delete, finish.
  split.
  - intros model ->.
    destruct (drv_create _ _ _ _) as [[m1 [e1|]] w1];
      destruct (drv_save _ _ _ _) as [[m2 [e2|]] w2];
      destruct (drv_delete _ _ _ _ _) as [[e3|] w3]; simpl; eauto 10.
  - by intros ->.
Qed.

(** An error that [Insert] returns is the error of its [Create] call. *)
Lemma Insert_error r ctx entity s res err :
  fst (Insert r ctx entity s) = Returned (res, Some err) ->
  exists model, assert_M (FromEntity zero_M entity) = Some model
    /\ snd (fst (drv_create driver (WithContext (db r) ctx) model (world s))) = Some err.
Proof.
  unfold Insert, bind, ret, Create, finish.
  destruct (assert_M _) as [model|]; [|done].
  destruct (drv_create _ _ _ _) as [[m1 [e1|]] w1] eqn:Hc; simpl; [|done].
  intros [= _ ->]. exists model. by rewrite Hc.
Qed.

(** *** The context *)

(** The contexts of the handles on which a computation made its calls. *)
Definition contexts {A} (m : DBM A) (w : World) : list (option Ctx) :=
  (fun c => db_context (call_db c)) <$> calls (snd (run m w)).

Lemma getPreWarmDbForSelect_context r ctx specs :
  db_context (getPreWarmDbForSelect r ctx specs) = Some ctx.
Proof. by rewrite getPreWarmDbForSelect_fields. Qed.

(** [FindByModelMulti], [FindByEntity] and [FindByEntityWithOptions] build
    their query on [r.db] as it is: the handle of their one call has the
    context of [r.db], whatever [ctx] they were given. *)
Lemma context_not_forwarded (r : t) (ctx : Ctx) (entity : M) (e : any)
    (eagerLoad : bool) (w : World) :
  contexts (FindByModelMulti r ctx entity) w = [db_context (db r)]
  /\ contexts (FindByEntity r ctx e) w = [db_context (db r)]
  /\ contexts (FindByEntityWithOptions r ctx e eagerLoad) w = [db_context (db r)].
Proof.
  unfold contexts, FindByModelMulti, FindByEntity, FindByEntityWithOptions,
    run, bind, ret, gorm.Find, finish.
  repeat split; simpl.
  - by destruct (drv_find _ _ _) as [[models [err|]] w'].
  - by destruct (drv_find _ _ _) as [[models err] w'].
  - by destruct (drv_find _ _ _) as [[models err] w'].
Qed.

(** Every other method makes its calls on a handle that carries [ctx]. *)
Lemma context_forwarded (r : t) (ctx : Ctx) (entity : E) (model : M)
    (id data : any) (eagerLoad : bool) (limit offset : Z)
    (pageCfg : PageConfig.t) (specs : list (Specification any)) (w : World) :
  Forall (fun c => c = Some ctx)
    (contexts (Insert r ctx entity) w
     ++ contexts (InsertDirect r ctx model) w
     ++ contexts (InsertFromInterface r ctx data) w
     ++ contexts (Delete r ctx entity) w
     ++ contexts (DeleteById r ctx id) w
     ++ contexts (Update r ctx entity) w
     ++ contexts (UpdateDirect r ctx model) w
     ++ contexts (FindByID r ctx id) w
     ++ contexts (FindByIDWithOptions r ctx id eagerLoad) w
     ++ contexts (FindByModel r ctx model) w
     ++ contexts (Find r ctx specs) w
     ++ contexts (FindPaged r ctx specs) w
     ++ contexts (Count r ctx specs) w
     ++ contexts (FindWithLimit r ctx limit offset specs) w
     ++ contexts (FindPagedWithLimit r ctx pageCfg specs) w
     ++ contexts (FindAll r ctx) w).
Proof.
  repeat (apply Forall_app; split).
  all: unfold contexts.
  all: try rewrite FindPagedWithLimit_run.
  all: unfold Insert, InsertDirect, InsertFromInterface, Delete, DeleteById, Update,
         UpdateDirect, FindByID, FindByIDWithOptions, FindByModel, Find, FindPaged,
         FindAll, Count, FindWithLimit, run, bind, ret, Create, CreateAny,
         Save, gorm.Delete, First, gorm.Find, gorm.Count, finish, count_query, data_query.
  all: cbv zeta.
  all: repeat match goal with
       | |- context [assert_M ?x] => destruct (assert_M x)
       | |- context [shouldCount ?x] => destruct (shouldCount x)
       | |- context [drv_create ?a ?b ?c ?d] => destruct (drv_create a b c d) as [[? [?|]] ?]
       | |- context [drv_create_any ?a ?b ?c ?d] => destruct (drv_create_any a b c d) as [[?|] ?]
       | |- context [drv_save ?a ?b ?c ?d] => destruct (drv_save a b c d) as [[? [?|]] ?]
       | |- context [drv_delete ?a ?b ?c ?d ?e] => destruct (drv_delete a b c d e) as [[?|] ?]
       | |- context [drv_first ?a ?b ?c ?d] => destruct (drv_first a b c d) as [[? [?|]] ?]
       | |- context [drv_count ?a ?b ?c] => destruct (drv_count a b c) as [[? [?|]] ?]
       | |- context [drv_find ?a ?b ?c] => destruct (drv_find a b c) as [[? [?|]] ?]
       end.
  all: simpl; repeat constructor.
  all: try (simpl; by rewrite ?getPreWarmDbForSelect_context).
Qed.

(** *** Conversions *)

Lemma FromModelToDto_entities (models : list M) :
  FromModelToDto models = entities_of models.
Proof.
  unfold FromModelToDto. destruct (Z.eqb_spec (len models) 0) as [Hz|Hnz]; [|done].
  destruct models; [done | unfold len in Hz; simpl in Hz; lia].
Qed.

(** [FromModelToDto] converts every model, in order; its early return for
    an empty slice gives what the loop would give. *)
Theorem FromModelToDto_fmap (models : list M) :
  FromModelToDto models = ToEntity <$> models.
Proof. by rewrite FromModelToDto_entities, entities_of_fmap. Qed.

(** *** Filtered finds and counts *)

(** [FindWithLimit] runs one query, with the limit and the offset it was
    given on top of the conditions of the specifications.  When the query
    fails it returns no entity and the error of the query, whatever rows the
    query left; otherwise the rows as entities, in order. *)
Theorem FindWithLimit_result (r : t) (ctx : Ctx) (limit offset : Z)
    (specs : list (Specification any)) (w : World) :
  exists d,
    calls (snd (run (FindWithLimit r ctx limit offset specs) w)) = [CallFind d]
    /\ db_limit d = Some limit /\ db_offset d = Some offset
    /\ db_where d = db_where (db r) ++ (spec_cond <$> specs)
    /\ (forall models err w', drv_find driver d w = ((models, Some err), w') ->
          fst (run (FindWithLimit r ctx limit offset specs) w) = ([], Some err))
    /\ (forall models w', drv_find driver d w = ((models, None), w') ->
          fst (run (FindWithLimit r ctx limit offset specs) w)
          = (ToEntity <$> models, None)).
Proof.
  exists (Offset (Limit (getPreWarmDbForSelect r ctx specs) limit) offset).
  unfold FindWithLimit, run, bind, ret, gorm.Find, finish. cbn [world calls].
  split; [by destruct (drv_find _ _ _) as [[models [e|]] w']|].
  rewrite getPreWarmDbForSelect_fields. cbn. repeat split.
  - intros models err w' ->. done.
  - intros models w' ->. cbn. by rewrite entities_of_fmap.
Qed.

(** The conditions of every query of [Count], [FindWithLimit] and
    [FindPagedWithLimit] are those of the handle followed by those of the
    specifications: the count and the page are taken of the same rows. *)
Theorem same_conditions (r : t) (ctx : Ctx) (limit offset : Z)
    (pageCfg : PageConfig.t) (specs : list (Specification any)) (w : World) :
  Forall (fun c => db_where (call_db c) = db_where (db r) ++ (spec_cond <$> specs)
                   /\ db_context (call_db c) = Some ctx)
    (calls (snd (run (Count r ctx specs) w))
     ++ calls (snd (run (FindWithLimit r ctx limit offset specs) w))
     ++ calls (snd (run (FindPagedWithLimit r ctx pageCfg specs) w))).
Proof.
  repeat (apply Forall_app; split).
  all: try rewrite FindPagedWithLimit_run.
  all: unfold Count, FindWithLimit, run, bind, ret, gorm.Find, gorm.Count, finish,
         count_query, data_query.
  all: cbv zeta.
  all: repeat match goal with
       | |- context [shouldCount ?x] => destruct (shouldCount x)
       | |- context [drv_count ?a ?b ?c] => destruct (drv_count a b c) as [[? [?|]] ?]
       | |- context [drv_find ?a ?b ?c] => destruct (drv_find a b c) as [[? [?|]] ?]
       end.
  all: cbn; repeat constructor.
  all: by rewrite getPreWarmDbForSelect_fields.
Qed.

(** The query-building step touches the context and the conditions only,
    adds nothing for an empty list of specifications, and can be done in two
    steps: folding [specs1 ++ specs2] is folding [specs2] over the handle
    built from [specs1]. *)
Theorem getPreWarmDbForSelect_app (r : t) (ctx : Ctx)
    (specs1 specs2 : list (Specification any)) :
  getPreWarmDbForSelect r ctx [] = WithContext (db r) ctx
  /\ getPreWarmDbForSelect r ctx (specs1 ++ specs2)
     = getPreWarmDbForSelect (mk (getPreWarmDbForSelect r ctx specs1)) ctx specs2
  /\ db_limit (getPreWarmDbForSelect r ctx specs1) = db_limit (db r)
  /\ db_offset (getPreWarmDbForSelect r ctx specs1) = db_offset (db r)
  /\ db_preload (getPreWarmDbForSelect r ctx specs1) = db_preload (db r)
  /\ db_model (getPreWarmDbForSelect r ctx specs1) = db_model (db r).
Proof.
  split; [done|]. rewrite !getPreWarmDbForSelect_fields. cbn.
  by rewrite fmap_app, app_assoc.
Qed.

(** *** Lookups *)

(** When their query fails, [FindByID], [FindByIDWithOptions] and
    [FindByModel] return the zero value with the error, not the model the
    query may have partly filled. *)
Theorem lookup_zero_on_error (r : t) (ctx : Ctx) (id : any) (entity : M)
    (eagerLoad : bool) (w w' : World) (model : M) (err : Error) :
  (drv_first driver (WithContext (db r) ctx) [id] w = ((model, Some err), w') ->
     fst (run (FindByID r ctx id) w) = (zero_E, Some err))
  /\ (drv_first driver (Preload (WithContext (db r) ctx) Associations) [id] w
      = ((model, Some err), w') ->
      fst (run (FindByIDWithOptions r ctx id eagerLoad) w) = (zero_E, Some err))
  /\ (drv_first driver
        (Where (Preload (WithContext (db r) ctx) Associations) (QueryModel entity) [])
        [] w
      = ((model, Some err), w') ->
      fst (run (FindByModel r ctx entity) w) = (zero_M, Some err)).
Proof.
  unfold FindByID, FindByIDWithOptions, FindByModel, run, bind, ret, First, finish.
  cbn [world calls]. repeat split; by intros ->.
Qed.

(** The [eagerLoad] flag changes nothing: [FindByIDWithOptions] and
    [FindByEntityWithOptions] preload the associations whether it is set or
    not. *)
Theorem eagerLoad_ignored (r : t) (ctx : Ctx) (id e : any) (eagerLoad : bool)
    (w : World) :
  FindByIDWithOptions r ctx id eagerLoad = FindByIDWithOptions r ctx id (negb eagerLoad)
  /\ FindByEntityWithOptions r ctx e eagerLoad
     = FindByEntityWithOptions r ctx e (negb eagerLoad)
  /\ (fun c => db_preload (call_db c))
       <$> calls (snd (run (FindByIDWithOptions r ctx id eagerLoad) w))
     = [db_preload (db r) ++ [Associations]]
  /\ (fun c => db_preload (call_db c))
       <$> calls (snd (run (FindByEntityWithOptions r ctx e eagerLoad) w))
     = [db_preload (db r) ++ [Associations]].
Proof.
  repeat split.
  - unfold FindByIDWithOptions, run, bind, ret, First, finish. cbn [world calls].
    by destruct (drv_first _ _ _ _) as [[m [err|]] w'].
  - unfold FindByEntityWithOptions, run, bind, ret, gorm.Find, finish. cbn [world calls].
    by destruct (drv_find _ _ _) as [[m err] w'].
Qed.

(** Query by example when the query fails: [FindByEntity] and
    [FindByEntityWithOptions] return the rows the query left, converted,
    together with the error; [FindByModelMulti] returns no row. *)
Theorem rows_on_error (r : t) (ctx : Ctx) (entity : M) (e : any) (eagerLoad : bool)
    (w w' : World) (models : list M) (err : Error) :
  (drv_find driver (Where (db r) (QueryValue e) []) w = ((models, Some err), w') ->
     fst (run (FindByEntity r ctx e) w) = (ToEntity <$> models, Some err))
  /\ (drv_find driver (Preload (Where (db r) (QueryValue e) []) Associations) w
      = ((models, Some err), w') ->
      fst (run (FindByEntityWithOptions r ctx e eagerLoad) w)
      = (ToEntity <$> models, Some err))
  /\ (drv_find driver (Where (db r) (QueryModel entity) []) w
      = ((models, Some err), w') ->
      fst (run (FindByModelMulti r ctx entity) w) = ([], Some err)).
Proof.
  unfold FindByEntity, FindByEntityWithOptions, FindByModelMulti, run, bind, ret,
    gorm.Find, finish. cbn [world calls].
  repeat split; intros ->; cbn; by rewrite ?FromModelToDto_entities, ?entities_of_fmap.
Qed.

(** *** Writes *)

(** [Insert] and [Update] write back through the entity pointer only on
    success: the entity becomes the model as the database left it (with its
    generated key), converted; when the call fails the entity is as it
    was. *)
Theorem entity_written_back (r : t) (ctx : Ctx) (entity : E) (model model' : M)
    (w w' : World) (result : option Error) :
  assert_M (FromEntity zero_M entity) = Some model ->
  (drv_create driver (WithContext (db r) ctx) model w = ((model', result), w') ->
     fst (run (Insert r ctx entity) w)
     = Returned (match result with
                 | None => ToEntity model'
                 | Some _ => entity
                 end, result))
  /\ (drv_save driver (WithContext (db r) ctx) model w = ((model', result), w') ->
      fst (run (Update r ctx entity) w)
      = Returned (match result with
                  | None => ToEntity model'
                  | Some _ => entity
                  end, result)).
Proof.
  intros Hassert. unfold Insert, Update, run, bind, ret, Create, Save, finish.
  rewrite Hassert. cbn [world calls].
  split; intros ->; by destruct result.
Qed.

(** *** What the methods ask of the database *)

Definition is_write (c : Call M any Ctx) : bool :=
  match c with
  | CallCreate _ _ | CallCreateAny _ _ | CallSave _ _ | CallDelete _ _ _ => true
  | CallFirst _ _ | CallFind _ | CallCount _ => false
  end.

(** The finds and counts only read: none of their calls is a [Create], a
    [Save] or a [Delete]. *)
Theorem reads_do_not_write (r : t) (ctx : Ctx) (model : M) (id e : any)
    (eagerLoad : bool) (limit offset : Z) (pageCfg : PageConfig.t)
    (specs : list (Specification any)) (w : World) :
  Forall (fun c => is_write c = false)
    (calls (snd (run (FindByID r ctx id) w))
     ++ calls (snd (run (FindByIDWithOptions r ctx id eagerLoad) w))
     ++ calls (snd (run (FindByModel r ctx model) w))
     ++ calls (snd (run (FindByModelMulti r ctx model) w))
     ++ calls (snd (run (Find r ctx specs) w))
     ++ calls (snd (run (FindPaged r ctx specs) w))
     ++ calls (snd (run (Count r ctx specs) w))
     ++ calls (snd (run (FindWithLimit r ctx limit offset specs) w))
     ++ calls (snd (run (FindPagedWithLimit r ctx pageCfg specs) w))
     ++ calls (snd (run (FindAll r ctx) w))
     ++ calls (snd (run (FindByEntity r ctx e) w))
     ++ calls (snd (run (FindByEntityWithOptions r ctx e eagerLoad) w))).
Proof.
  repeat (apply Forall_app; split).
  all: try rewrite FindPagedWithLimit_run.
  all: unfold FindByID, FindByIDWithOptions, FindByModel, FindByModelMulti, Find,
         FindPaged, FindAll, Count, FindWithLimit, FindByEntity,
         FindByEntityWithOptions, run, bind, ret, First, gorm.Find, gorm.Count, finish.
  all: cbv zeta.
  all: repeat match goal with
       | |- context [shouldCount ?x] => destruct (shouldCount x)
       | |- context [drv_first ?a ?b ?c ?d] => destruct (drv_first a b c d) as [[? [?|]] ?]
       | |- context [drv_count ?a ?b ?c] => destruct (drv_count a b c) as [[? [?|]] ?]
       | |- context [drv_find ?a ?b ?c] => destruct (drv_find a b c) as [[? [?|]] ?]
       end.
  all: cbn; repeat constructor.
Qed.

(** The number of calls a computation makes to the database. *)
Definition call_count {A} (m : DBM A) (w : World) : nat :=
  length (calls (snd (run m w))).

(** Every method but [FindPagedWithLimit] makes one call to the database,
    or none when the assertion of [Insert], [Update] or [Delete] panics;
    [FindPagedWithLimit] makes one or two. *)
Theorem number_of_calls (r : t) (ctx : Ctx) (entity : E) (model : M)
    (id data : any) (eagerLoad : bool) (limit offset : Z)
    (pageCfg : PageConfig.t) (specs : list (Specification any)) (w : World) :
  let asserted :=
    match assert_M (FromEntity zero_M entity) with Some _ => 1%nat | None => 0%nat end in
  call_count (Insert r ctx entity) w = asserted
  /\ call_count (Update r ctx entity) w = asserted
  /\ call_count (Delete r ctx entity) w = asserted
  /\ call_count (InsertDirect r ctx model) w = 1%nat
  /\ call_count (InsertFromInterface r ctx data) w = 1%nat
  /\ call_count (DeleteById r ctx id) w = 1%nat
  /\ call_count (UpdateDirect r ctx model) w = 1%nat
  /\ call_count (FindByID r ctx id) w = 1%nat
  /\ call_count (FindByIDWithOptions r ctx id eagerLoad) w = 1%nat
  /\ call_count (FindByModel r ctx model) w = 1%nat
  /\ call_count (FindByModelMulti r ctx model) w = 1%nat
  /\ call_count (Count r ctx specs) w = 1%nat
  /\ call_count (FindWithLimit r ctx limit offset specs) w = 1%nat
  /\ call_count (FindByEntity r ctx id) w = 1%nat
  /\ call_count (FindByEntityWithOptions r ctx id eagerLoad) w = 1%nat
  /\ (1 <= call_count (FindPagedWithLimit r ctx pageCfg specs) w <= 2)%nat.
Proof.
  cbv zeta. unfold call_count. repeat split.
  all: try rewrite FindPagedWithLimit_run.
  all: unfold Insert, InsertDirect, InsertFromInterface, Delete, DeleteById, Update,
         UpdateDirect, FindByID, FindByIDWithOptions, FindByModel, FindByModelMulti,
         Count, FindWithLimit, FindByEntity, FindByEntityWithOptions, run, bind, ret,
         Create, CreateAny, Save, gorm.Delete, First, gorm.Find, gorm.Count, finish.
  all: cbv zeta.
  all: repeat match goal with
       | |- context [assert_M ?x] => destruct (assert_M x)
       | |- context [shouldCount ?x] => destruct (shouldCount x)
       | |- context [drv_create ?a ?b ?c ?d] => destruct (drv_create a b c d) as [[? [?|]] ?]
       | |- context [drv_create_any ?a ?b ?c ?d] => destruct (drv_create_any a b c d) as [[?|] ?]
       | |- context [drv_save ?a ?b ?c ?d] => destruct (drv_save a b c d) as [[? [?|]] ?]
       | |- context [drv_delete ?a ?b ?c ?d ?e] => destruct (drv_delete a b c d e) as [[?|] ?]
       | |- context [drv_first ?a ?b ?c ?d] => destruct (drv_first a b c d) as [[? [?|]] ?]
       | |- context [drv_count ?a ?b ?c] => destruct (drv_count a b c) as [[? [?|]] ?]
       | |- context [drv_find ?a ?b ?c] => destruct (drv_find a b c) as [[? [?|]] ?]
       end.
  all: cbn; lia.
Qed.

(** *** More about the paginated find *)

(** The page count computed from a row count of at most 2^53. *)
Lemma counted_pages (pageCfg : PageConfig.t) (R : Z) :
  0 <= R <= 2 ^ 53 ->
  int_of_float (Ceil (div (of_int R) (minLimit pageCfg)))
  = ceiling R (Z.max 1 (PageConfig.Size pageCfg)).
Proof.
  intros HR. unfold minLimit.
  destruct (Max_one_of_int (PageConfig.Size pageCfg)) as (s & -> & Hs1 & Hs & Hl).
  rewrite Ceil_div_of_int by lia.
  assert (ceiling R s = ceiling R (Z.max 1 (PageConfig.Size pageCfg))) as Hceil.
  { destruct (Z.le_gt_cases (PageConfig.Size pageCfg) (2 ^ 53)) as [Hle|Hgt].
    - by rewrite (Hs Hle).
    - specialize (Hl ltac:(lia)).
      destruct (Z.eq_dec R 0) as [->|HR0]; [done|].
      rewrite !ceiling_small; [done | lia | lia]. }
  rewrite <- Hceil. apply int_of_float_int.
  assert (0 <= ceiling R s <= R); [|unfold in_int, int_min, int_max; lia].
  destruct (Z.eq_dec R 0) as [->|HR0]; [done|].
  pose proof (ceiling_bounds R s ltac:(lia)) as Hb. nia.
Qed.

(** When the count query fails, [FindPagedWithLimit] stops there: it runs no
    data query and returns the error with an empty page whose count is 0,
    whatever number the query left. *)
Theorem FindPagedWithLimit_count_fails (r : t) (ctx : Ctx) (pageCfg : PageConfig.t)
    (specs : list (Specification any)) (w w1 : World) (n : Z) (err : Error) :
  PageConfig.ForceCount pageCfg
  || ((PageConfig.Page pageCfg =? 0) && negb (PageConfig.IgnoreCount pageCfg)) = true ->
  drv_count driver (Model (getPreWarmDbForSelect r ctx specs) zero_M) w
    = ((n, Some err), w1) ->
  fst (run (FindPagedWithLimit r ctx pageCfg specs) w)
    = (PageResult.mk [] 0 (PageConfig.Page pageCfg), Some err)
  /\ filter is_find (calls (snd (run (FindPagedWithLimit r ctx pageCfg specs) w))) = []
  /\ world (snd (run (FindPagedWithLimit r ctx pageCfg specs) w)) = w1.
Proof.
  intros Hcount Hdrv. rewrite FindPagedWithLimit_run. cbv zeta.
  unfold shouldCount, count_query. by rewrite Hcount, Hdrv.
Qed.

(** When the data query fails, [FindPagedWithLimit] returns its error and
    an empty page, dropping the rows the query left; the page count computed
    before is kept (0 when the count was skipped). *)
Theorem FindPagedWithLimit_find_fails (r : t) (ctx : Ctx) (pageCfg : PageConfig.t)
    (specs : list (Specification any)) (w w1 w2 : World) (R : Z)
    (models : list M) (err : Error) :
  0 <= R <= 2 ^ 53 ->
  PageConfig.Size pageCfg <= 2 ^ 53 ->
  (PageConfig.ForceCount pageCfg
   || ((PageConfig.Page pageCfg =? 0) && negb (PageConfig.IgnoreCount pageCfg)) = true ->
   drv_count driver (Model (getPreWarmDbForSelect r ctx specs) zero_M) w
     = ((R, None), w1) ->
   drv_find driver
     (Offset (Limit (getPreWarmDbForSelect r ctx specs)
                    (Z.max 1 (PageConfig.Size pageCfg)))
             (PageConfig.Page pageCfg)) w1
     = ((models, Some err), w2) ->
   fst (run (FindPagedWithLimit r ctx pageCfg specs) w)
   = (PageResult.mk [] (ceiling R (Z.max 1 (PageConfig.Size pageCfg)))
                    (PageConfig.Page pageCfg), Some err))
  /\ (PageConfig.ForceCount pageCfg
      || ((PageConfig.Page pageCfg =? 0) && negb (PageConfig.IgnoreCount pageCfg))
      = false ->
      drv_find driver
        (Offset (Limit (getPreWarmDbForSelect r ctx specs)
                       (Z.max 1 (PageConfig.Size pageCfg)))
                (PageConfig.Page pageCfg)) w
        = ((models, Some err), w2) ->
      fst (run (FindPagedWithLimit r ctx pageCfg specs) w)
      = (PageResult.mk [] 0 (PageConfig.Page pageCfg), Some err)).
Proof.
  intros HR Hsize. rewrite FindPagedWithLimit_run. cbv zeta.
  unfold shouldCount, count_query, data_query.
  rewrite (int_of_float_minLimit _ Hsize). split.
  - intros -> -> ->. cbn. by rewrite counted_pages.
  - by intros -> ->.
Qed.

(** The page count, for a row count [R] of at most 2^53: the pages hold all
    [R] rows and the last one is not empty; there are no more pages than
    rows, and none exactly when there is no row. *)
Theorem page_count_bounds (r : t) (ctx : Ctx) (pageCfg : PageConfig.t)
    (specs : list (Specification any)) (w w1 : World) (R : Z) :
  0 <= R <= 2 ^ 53 ->
  PageConfig.ForceCount pageCfg
  || ((PageConfig.Page pageCfg =? 0) && negb (PageConfig.IgnoreCount pageCfg)) = true ->
  drv_count driver (Model (getPreWarmDbForSelect r ctx specs) zero_M) w
    = ((R, None), w1) ->
  let pages := PageResult.Count (fst (fst (run (FindPagedWithLimit r ctx pageCfg specs) w))) in
  let size := Z.max 1 (PageConfig.Size pageCfg) in
  (pages - 1) * size < R <= pages * size
  /\ 0 <= pages <= R
  /\ (pages = 0 <-> R = 0).
Proof.
  intros HR Hcount Hdrv. cbv zeta.
  assert (PageResult.Count (fst (fst (run (FindPagedWithLimit r ctx pageCfg specs) w)))
          = ceiling R (Z.max 1 (PageConfig.Size pageCfg))) as ->.
  { rewrite FindPagedWithLimit_run. cbv zeta.
    unfold shouldCount, count_query. rewrite Hcount, Hdrv, counted_pages by done.
    by destruct (drv_find _ _ _) as [[models [e|]] w2]. }
  pose proof (ceiling_bounds R (Z.max 1 (PageConfig.Size pageCfg)) ltac:(lia)) as Hb.
  set (pages := ceiling R (Z.max 1 (PageConfig.Size pageCfg))) in *.
  set (size := Z.max 1 (PageConfig.Size pageCfg)) in *.
  assert (1 <= size) by (subst size; lia). nia.
Qed.

(** The [LIMIT] of the data query for any page size up to 2^63 - 513: at
    least 1, and within 512 of the requested size raised to at least 1 (the
    rounding of the conversion to [float64]). *)
Theorem FindPagedWithLimit_limit_bound (r : t) (ctx : Ctx) (pageCfg : PageConfig.t)
    (specs : list (Specification any)) (w : World) :
  PageConfig.Size pageCfg <= int_max - 512 ->
  Forall (fun c => exists limit,
            db_limit (call_db c) = Some limit /\ 1 <= limit
            /\ Z.abs (limit - Z.max 1 (PageConfig.Size pageCfg)) <= 512)
    (filter is_find (calls (snd (run (FindPagedWithLimit r ctx pageCfg specs) w)))).
Proof.
  intros Hsize.
  assert (exists limit, int_of_float (minLimit pageCfg) = limit /\ 1 <= limit
            /\ Z.abs (limit - Z.max 1 (PageConfig.Size pageCfg)) <= 512)
    as (limit & Hlimit & Hone & Herr).
  { unfold minLimit, Max.
    destruct (Z.le_gt_cases (PageConfig.Size pageCfg) 0) as [Hn|Hp].
    - destruct (of_int_nonpos _ Hn) as (z' & -> & Hz').
      rewrite leb_int. destruct (Z.leb_spec 1 z'); [lia|].
      exists 1. rewrite int_of_float_int by (unfold in_int, int_min, int_max; lia).
      repeat split; lia.
    - destruct (Float64Error.of_int_error (PageConfig.Size pageCfg))
        as (v & -> & Hv & Hv0 & Hexact); [unfold int_max in *; lia|].
      assert (1 <= v) as Hv1.
      { destruct (Z.le_gt_cases (PageConfig.Size pageCfg) (2 ^ 53)); lia. }
      rewrite leb_int. destruct (Z.leb_spec 1 v); [|lia].
      exists v. rewrite int_of_float_int by (unfold in_int, int_min, int_max in *; lia).
      repeat split; lia. }
  rewrite FindPagedWithLimit_run. cbv zeta. unfold data_query. rewrite Hlimit.
  destruct (shouldCount pageCfg).
  - destruct (drv_count _ _ _) as [[n [e|]] w1]; cbn; [constructor|].
    destruct (drv_find _ _ _) as [[models [e|]] w2]; cbn;
      (constructor; [by exists limit | constructor]).
  - destruct (drv_find _ _ _) as [[models [e|]] w2]; cbn;
      (constructor; [by exists limit | constructor]).
Qed.

End Repository.
Arguments t : clear implicits.
End GormRepository.

(** ** A small instance

    A table of integers behind a driver that pages with [LIMIT] and [OFFSET]
    and reports a stored row count; models and entities are the integers
    themselves.  [FromEntity] wraps an entity as a model, except for a
    negative entity, which it hands back as a plain integer. *)
Module Demo.
Import gorm.

Inductive value :=
| VModel (m : Z)
| VInt (z : Z)
| VString (s : string).

Definition ToEntity (m : Z) : Z := m.

Definition FromEntity (start : Z) (entity : Z) : value :=
  if 0 <=? entity then VModel entity else VInt entity.

Definition assert_model (x : value) : option Z :=
  match x with VModel m => Some m | _ => None end.

Definition assert_string (x : value) : option string :=
  match x with VString s => Some s | _ => None end.

Record world := mkWorld { table : list Z; row_count : Z }.

Definition page (d : DB Z value Z) (rows : list Z) : list Z :=
  let rows :=
    match db_offset d with
    | Some o => if 0 <? o then drop (Z.to_nat o) rows else rows
    | None => rows
    end in
  match db_limit d with
  | Some l => if 0 <=? l then take (Z.to_nat l) rows else rows
  | None => rows
  end.

Definition driver : Driver Z value Z string world :=
  mkDriver
    (fun d m w => ((m, None), mkWorld (table w ++ [m]) (row_count w + 1)))
    (fun d v w => (None, w))
    (fun d m w => ((m, None), w))
    (fun d m conds w => (None, w))
    (fun d conds w =>
       match table w with
       | [] => ((0, Some "record not found"%string), w)
       | m :: _ => ((m, None), w)
       end)
    (fun d w => ((page d (table w), None), w))
    (fun d w => ((row_count w, None), w)).

(** The conversion result of amd64 for a float outside the [int] range. *)
Definition int_out_of_range (f : Float64.float64) : Z := int_min.

(** A repository on a fresh handle, which carries no context. *)
Definition repo : GormRepository.t Z value Z :=
  GormRepository.NewRepository (mkDB None [] None None [] None).

Definition FindPagedWithLimit :=
  GormRepository.FindPagedWithLimit 0 driver int_out_of_range repo.

Definition five_rows : world := mkWorld [10; 20; 30; 40; 50] 5.

Definition second_page : PageConfig.t := PageConfig.mk 1 2 false true.

Definition active : Specification value :=
  Build_Specification value "active = ?" [VInt 1].

Definition huge_page : PageConfig.t := PageConfig.mk 0 (2 ^ 53 + 1) true false.

Definition huge_table : world := mkWorld [] (2 ^ 53 + 1).

Definition single_rows : PageConfig.t := PageConfig.mk 0 1 false false.

Example FindPagedWithLimit_second_page :
  fst (run (FindPagedWithLimit 7 second_page [active]) five_rows)
  = (PageResult.mk [20; 30] 3 1, None).
Proof. reflexivity. Qed.

Lemma FindPagedWithLimit_counts_iff_witness :
  PageConfig.ForceCount huge_page
  || ((PageConfig.Page huge_page =? 0) && negb (PageConfig.IgnoreCount huge_page)) = false
  /\ PageResult.Count (fst (fst (run (FindPagedWithLimit 7 huge_page []) five_rows))) = 0.
Proof.
  split; [reflexivity|].
  apply (proj2 (GormRepository.FindPagedWithLimit_counts_iff 0 driver
                  int_out_of_range repo 7 huge_page [] five_rows)).
  reflexivity.
Defined.

Lemma FindPagedWithLimit_data_query_witness :
  PageConfig.Size second_page <= 2 ^ 53
  /\ PageResult.Page (fst (fst (run (FindPagedWithLimit 7 second_page [active]) five_rows)))
     = PageConfig.Page second_page.
Proof.
  assert (PageConfig.Size second_page <= 2 ^ 53) as H by (vm_compute; discriminate).
  split; [exact H|].
  exact (proj1 (proj2 (proj2 (GormRepository.FindPagedWithLimit_data_query 0 driver
                         int_out_of_range repo 7 second_page [active] five_rows H)))).
Defined.

(** C1, as stated, fails for a page size that [float64] cannot hold: for
    2^53 + 1 the query is limited to 2^53 rows. *)
Lemma FindPagedWithLimit_limit_counterexample :
  (fun c => db_limit (call_db c))
    <$> calls (snd (run (FindPagedWithLimit 7 huge_page []) five_rows))
  = [Some 9007199254740992]
  /\ Z.max 1 (PageConfig.Size huge_page) = 9007199254740993.
Proof. split; reflexivity. Qed.

Lemma FindPagedWithLimit_page_count_witness :
  0 <= 5 <= 2 ^ 53
  /\ PageResult.Count (fst (fst (run (FindPagedWithLimit 7 second_page [active]) five_rows)))
     = ceiling 5 (Z.max 1 (PageConfig.Size second_page)).
Proof.
  assert (0 <= 5 <= 2 ^ 53) as H by (vm_compute; split; discriminate).
  split; [exact H|].
  exact (proj1 (GormRepository.FindPagedWithLimit_page_count 0 driver
                  int_out_of_range repo 7 second_page [active] five_rows five_rows 5
                  H eq_refl eq_refl)).
Defined.

(** C2, as stated, fails for a row count that [float64] cannot hold: 2^53 + 1
    rows in pages of one row are reported as 2^53 pages. *)
Lemma FindPagedWithLimit_page_count_counterexample :
  PageResult.Count (fst (fst (run (FindPagedWithLimit 7 single_rows []) huge_table)))
  = 9007199254740992
  /\ ceiling (row_count huge_table) (Z.max 1 (PageConfig.Size single_rows))
     = 9007199254740993.
Proof. split; reflexivity. Qed.

Lemma Find_FindPaged_FindAll_witness :
  drv_find driver
    (Offset (Limit (GormRepository.getPreWarmDbForSelect repo 7 [active]) (-1)) (-1))
    five_rows
  = (([10; 20; 30; 40; 50], None), five_rows)
  /\ fst (run (GormRepository.Find ToEntity driver repo 7 [active]) five_rows)
     = (ToEntity <$> [10; 20; 30; 40; 50], None).
Proof.
  split; [reflexivity|].
  exact (proj2 (proj2 (proj2 (proj2
           (GormRepository.Find_FindPaged_FindAll ToEntity driver repo 7 [active] five_rows))))
           [10; 20; 30; 40; 50] five_rows eq_refl).
Defined.

(** C7.  [FindByModelMulti], [FindByEntity] and [FindByEntityWithOptions]
    take a context and do not forward it: called with the context [7] on a
    repository whose handle carries none, each runs its query on a handle
    without context, where [FindByModel] runs its query with the context. *)
Theorem context_dropped :
  GormRepository.contexts (GormRepository.FindByModelMulti driver repo 7 20) five_rows
    = [None]
  /\ GormRepository.contexts (GormRepository.FindByEntity ToEntity driver repo 7 (VInt 20))
       five_rows = [None]
  /\ GormRepository.contexts
       (GormRepository.FindByEntityWithOptions ToEntity driver repo 7 (VInt 20) true)
       five_rows = [None]
  /\ GormRepository.contexts (GormRepository.FindByModel 0 driver repo 7 20) five_rows
     = [Some 7].
Proof. repeat split. Qed.

Lemma MapDto_assertion_fails_witness :
  [3; 4] !! 1%nat = Some 4
  /\ assert_string (VInt (ToEntity 4)) = None
  /\ MapDto ToEntity VInt assert_string ""%string [3; 4] "dto"%string !! 1%nat
     = Some ""%string.
Proof.
  split; [reflexivity|]. split; [reflexivity|].
  exact (proj1 (MapDto_assertion_fails ToEntity VInt assert_string ""%string
                  [3; 4] "dto"%string 1 4 eq_refl eq_refl)).
Defined.

Lemma unchecked_assertion_witness :
  assert_model (FromEntity 0 5) = Some 5
  /\ calls (snd (GormRepository.Insert ToEntity FromEntity 0 assert_model driver repo 7 5
                   (mkSession five_rows [])))
     = [CallCreate (WithContext (GormRepository.db repo) 7) 5]
  /\ assert_model (FromEntity 0 (-5)) = None
  /\ GormRepository.Insert ToEntity FromEntity 0 assert_model driver repo 7 (-5)
       (mkSession five_rows [])
     = (Panicked, mkSession five_rows []).
Proof.
  split; [reflexivity|]. split.
  { exact (proj1 (proj2 (proj1 (GormRepository.unchecked_assertion ToEntity FromEntity 0
             assert_model driver repo 7 5 (mkSession five_rows [])) 5 eq_refl))). }
  split; [reflexivity|].
  exact (proj1 (proj2 (GormRepository.unchecked_assertion ToEntity FromEntity 0
           assert_model driver repo 7 (-5) (mkSession five_rows [])) eq_refl)).
Defined.

End Demo.

(** ** A database that fails

    The table of [Demo] behind a driver whose count query or find query can
    be made to fail while still writing into its destination, whose [First]
    always fails, and whose [Create] and [Save] refuse a key that is in the
    table and give a fresh key to a model without one. *)
Module Failing.
Import gorm Demo.

Definition store (m : Z) (w : world) : (Z * option string) * world :=
  if bool_decide (m ∈ table w) then ((m, Some "duplicate key"%string), w)
  else
    let key := if m =? 0 then len (table w) + 1 else m in
    ((key, None), mkWorld (table w ++ [key]) (row_count w + 1)).

Definition driver (count_fails find_fails : bool) : Driver Z value Z string world :=
  mkDriver
    (fun d m w => store m w)
    (fun d v w => (None, w))
    (fun d m w => store m w)
    (fun d m conds w => (None, w))
    (fun d conds w => ((42, Some "connection lost"%string), w))
    (fun d w =>
       ((page d (table w), if find_fails then Some "connection lost"%string else None), w))
    (fun d w =>
       ((row_count w, if count_fails then Some "connection lost"%string else None), w)).

Definition three_rows : world := mkWorld [10; 20; 30] 3.

Lemma MapDto_uniform_witness :
  MapDto ToEntity VInt assert_string ""%string [3; 4] "dto"%string
  = replicate (length [3; 4]) ""%string
  /\ MapDto ToEntity VModel assert_model 0 [3; 4] 0
     = (fun ce => ToEntity ce) <$> [3; 4].
Proof.
  split.
  - apply (proj1 (MapDto_uniform ToEntity VInt assert_string ""%string [3; 4] "dto"%string)).
    intros ce _. reflexivity.
  - apply (proj2 (MapDto_uniform ToEntity VModel assert_model 0 [3; 4] 0) (fun e => e)).
    intros ce _. reflexivity.
Defined.

Lemma FindWithLimit_result_witness :
  exists d,
    calls (snd (run (GormRepository.FindWithLimit ToEntity (driver false true) repo 7 2 1
                       [active]) three_rows)) = [CallFind d]
    /\ db_limit d = Some 2 /\ db_offset d = Some 1
    /\ fst (run (GormRepository.FindWithLimit ToEntity (driver false true) repo 7 2 1
                   [active]) three_rows) = ([], Some "connection lost"%string)
    /\ fst (run (GormRepository.FindWithLimit ToEntity (driver false false) repo 7 2 1
                   [active]) three_rows) = (ToEntity <$> [20; 30], None).
Proof.
  destruct (GormRepository.FindWithLimit_result ToEntity (driver false true) repo 7 2 1
              [active] three_rows) as (d & Hcalls & Hlimit & Hoffset & _ & Herr & _).
  destruct (GormRepository.FindWithLimit_result ToEntity (driver false false) repo 7 2 1
              [active] three_rows) as (d' & Hcalls' & _ & _ & _ & _ & Hok).
  exists d. split; [exact Hcalls|]. split; [exact Hlimit|]. split; [exact Hoffset|].
  injection Hcalls as <-. injection Hcalls' as <-. split.
  - exact (Herr [20; 30] "connection lost"%string three_rows eq_refl).
  - exact (Hok [20; 30] three_rows eq_refl).
Defined.

Lemma lookup_zero_on_error_witness :
  drv_first (driver false false) (WithContext (GormRepository.db repo) 7) [VInt 5] three_rows
  = ((42, Some "connection lost"%string), three_rows)
  /\ fst (run (GormRepository.FindByID ToEntity 0 (driver false false) repo 7 (VInt 5))
            three_rows) = (0, Some "connection lost"%string)
  /\ fst (run (GormRepository.FindByIDWithOptions ToEntity 0 (driver false false) repo 7
                 (VInt 5) true) three_rows) = (0, Some "connection lost"%string)
  /\ fst (run (GormRepository.FindByModel 0 (driver false false) repo 7 20) three_rows)
     = (0, Some "connection lost"%string).
Proof.
  pose proof (GormRepository.lookup_zero_on_error ToEntity 0 0 (driver false false) repo 7
                (VInt 5) 20 true three_rows three_rows 42 "connection lost"%string)
    as (H1 & H2 & H3).
  split; [reflexivity|]. split; [exact (H1 eq_refl)|].
  split; [exact (H2 eq_refl) | exact (H3 eq_refl)].
Defined.

Lemma rows_on_error_witness :
  drv_find (driver false true) (Where (GormRepository.db repo) (QueryValue (VInt 20)) [])
    three_rows = (([10; 20; 30], Some "connection lost"%string), three_rows)
  /\ fst (run (GormRepository.FindByEntity ToEntity (driver false true) repo 7 (VInt 20))
            three_rows) = (ToEntity <$> [10; 20; 30], Some "connection lost"%string)
  /\ fst (run (GormRepository.FindByEntityWithOptions ToEntity (driver false true) repo 7
                 (VInt 20) true) three_rows)
     = (ToEntity <$> [10; 20; 30], Some "connection lost"%string)
  /\ fst (run (GormRepository.FindByModelMulti (driver false true) repo 7 20) three_rows)
     = ([], Some "connection lost"%string).
Proof.
  pose proof (GormRepository.rows_on_error ToEntity (driver false true) repo 7 20 (VInt 20)
                true three_rows three_rows [10; 20; 30] "connection lost"%string)
    as (H1 & H2 & H3).
  split; [reflexivity|]. split; [exact (H1 eq_refl)|].
  split; [exact (H2 eq_refl) | exact (H3 eq_refl)].
Defined.

Lemma entity_written_back_witness :
  assert_model (FromEntity 0 0) = Some 0
  /\ fst (run (GormRepository.Insert ToEntity FromEntity 0 assert_model (driver false false)
                 repo 7 0) three_rows) = Returned (4, None)
  /\ assert_model (FromEntity 0 20) = Some 20
  /\ fst (run (GormRepository.Insert ToEntity FromEntity 0 assert_model (driver false false)
                 repo 7 20) three_rows) = Returned (20, Some "duplicate key"%string)
  /\ fst (run (GormRepository.Update ToEntity FromEntity 0 assert_model (driver false false)
                 repo 7 0) three_rows) = Returned (4, None).
Proof.
  split; [reflexivity|]. split.
  { exact (proj1 (GormRepository.entity_written_back ToEntity FromEntity 0 assert_model
                    (driver false false) repo 7 0 0 4 three_rows
                    (mkWorld [10; 20; 30; 4] 4) None eq_refl) eq_refl). }
  split; [reflexivity|]. split.
  { exact (proj1 (GormRepository.entity_written_back ToEntity FromEntity 0 assert_model
                    (driver false false) repo 7 20 20 20 three_rows three_rows
                    (Some "duplicate key"%string) eq_refl) eq_refl). }
  exact (proj2 (GormRepository.entity_written_back ToEntity FromEntity 0 assert_model
                  (driver false false) repo 7 0 0 4 three_rows
                  (mkWorld [10; 20; 30; 4] 4) None eq_refl) eq_refl).
Defined.

Definition first_page : PageConfig.t := PageConfig.mk 0 2 false false.

Definition later_page : PageConfig.t := PageConfig.mk 1 2 false false.

Lemma FindPagedWithLimit_count_fails_witness :
  drv_count (driver true false)
    (Model (GormRepository.getPreWarmDbForSelect repo 7 [active]) 0) three_rows
  = ((3, Some "connection lost"%string), three_rows)
  /\ fst (run (GormRepository.FindPagedWithLimit 0 (driver true false) int_out_of_range
                 repo 7 first_page [active]) three_rows)
     = (PageResult.mk [] 0 0, Some "connection lost"%string).
Proof.
  split; [reflexivity|].
  exact (proj1 (GormRepository.FindPagedWithLimit_count_fails 0 (driver true false)
                  int_out_of_range repo 7 first_page [active] three_rows three_rows 3
                  "connection lost"%string eq_refl eq_refl)).
Defined.

Lemma FindPagedWithLimit_find_fails_witness :
  0 <= 3 <= 2 ^ 53
  /\ PageConfig.Size first_page <= 2 ^ 53
  /\ fst (run (GormRepository.FindPagedWithLimit 0 (driver false true) int_out_of_range
                 repo 7 first_page [active]) three_rows)
     = (PageResult.mk [] (ceiling 3 (Z.max 1 (PageConfig.Size first_page))) 0,
        Some "connection lost"%string)
  /\ fst (run (GormRepository.FindPagedWithLimit 0 (driver false true) int_out_of_range
                 repo 7 later_page [active]) three_rows)
     = (PageResult.mk [] 0 1, Some "connection lost"%string).
Proof.
  assert (0 <= 3 <= 2 ^ 53) as H1 by (vm_compute; split; discriminate).
  assert (PageConfig.Size first_page <= 2 ^ 53) as H2 by (vm_compute; discriminate).
  split; [exact H1|]. split; [exact H2|]. split.
  - exact (proj1 (GormRepository.FindPagedWithLimit_find_fails 0 (driver false true)
                    int_out_of_range repo 7 first_page [active] three_rows three_rows
                    three_rows 3 [10; 20] "connection lost"%string H1 H2)
             eq_refl eq_refl eq_refl).
  - exact (proj2 (GormRepository.FindPagedWithLimit_find_fails 0 (driver false true)
                    int_out_of_range repo 7 later_page [active] three_rows three_rows
                    three_rows 3 [20; 30] "connection lost"%string H1 H2)
             eq_refl eq_refl).
Defined.

Lemma page_count_bounds_witness :
  0 <= 3 <= 2 ^ 53
  /\ (PageResult.Count
        (fst (fst (run (GormRepository.FindPagedWithLimit 0 (driver false false)
                          int_out_of_range repo 7 first_page [active]) three_rows))) - 1)
     * Z.max 1 (PageConfig.Size first_page) < 3.
Proof.
  assert (0 <= 3 <= 2 ^ 53) as H1 by (vm_compute; split; discriminate).
  split; [exact H1|].
  exact (proj1 (proj1 (GormRepository.page_count_bounds 0 (driver false false)
                         int_out_of_range repo 7 first_page [active] three_rows
                         three_rows 3 H1 eq_refl eq_refl))).
Defined.

Definition rounded_page : PageConfig.t := PageConfig.mk 3 (2 ^ 62 + 1) true false.

Lemma FindPagedWithLimit_limit_bound_witness :
  PageConfig.Size rounded_page <= int_max - 512
  /\ Forall (fun c => exists limit,
               db_limit (call_db c) = Some limit /\ 1 <= limit
               /\ Z.abs (limit - Z.max 1 (PageConfig.Size rounded_page)) <= 512)
       (filter is_find
          (calls (snd (run (GormRepository.FindPagedWithLimit 0 (driver false false)
                              int_out_of_range repo 7 rounded_page [active]) three_rows)))).
Proof.
  assert (PageConfig.Size rounded_page <= int_max - 512) as H by (vm_compute; discriminate).
  split; [exact H|].
  exact (GormRepository.FindPagedWithLimit_limit_bound 0 (driver false false)
           int_out_of_range repo 7 rounded_page [active] three_rows H).
Defined.

Example rounded_limit :
  (fun c => db_limit (call_db c))
    <$> calls (snd (run (GormRepository.FindPagedWithLimit 0 (driver false false)
                           int_out_of_range repo 7 rounded_page [active]) three_rows))
  = [Some (2 ^ 62)].
Proof. reflexivity. Qed.

End Failing.
